(** * Event & RSVP manager: routes over the CouchDB document store

    A shallow embedding of the Express routes of the backend
    (routes/events.js, routes/participants.js, middleware/auth.js) and of
    the part of the CouchDB/nano interface they call.  A route handler is a
    program over store operations; every [await] of the source is one node
    of the program, so the same definition gives the behaviour of a request
    run alone ([run]) and of requests interleaved at their [await] points
    ([interleave]). *)

From stdpp Require Import gmap strings list fin_maps sorting.
From Stdlib Require Import ZArith Ascii.

Open Scope string_scope.

(** ** JavaScript strings *)

(** Truthiness of a string: only the empty string is falsy. *)
Definition truthy (s : string) : bool := negb (String.eqb s EmptyString).

(** [s.replace(pat, rep)] with a string pattern: the first occurrence only. *)
Fixpoint replace (pat rep s : string) : string :=
  if String.prefix pat s
  then rep ++ String.substring (String.length pat)
                (String.length s - String.length pat) s
  else match s with
       | EmptyString => EmptyString
       | String c s' => String c (replace pat rep s')
       end.

(** A string of the model is the UTF-8 text of the JavaScript string. *)
Definition utf8 (codes : list N) : string :=
  String.string_of_list_ascii (ascii_of_N <$> codes).

(** White space as validator.js strips it, the class [\s] of JavaScript:
    U+0009 to U+000D, U+0020, U+00A0, U+1680, U+2000 to U+200A, U+2028,
    U+2029, U+202F, U+205F, U+3000 and U+FEFF, each by the bytes of its
    UTF-8 form. *)
Definition white_space : list string :=
  utf8 <$> [ [9]; [10]; [11]; [12]; [13]; [32];
             [194; 160];
             [225; 154; 128];
             [226; 128; 128]; [226; 128; 129]; [226; 128; 130];
             [226; 128; 131]; [226; 128; 132]; [226; 128; 133];
             [226; 128; 134]; [226; 128; 135]; [226; 128; 136];
             [226; 128; 137]; [226; 128; 138];
             [226; 128; 168]; [226; 128; 169]; [226; 128; 175];
             [226; 129; 159];
             [227; 128; 128];
             [239; 187; 191] ]%N.

Definition is_space (bytes : list ascii) : bool :=
  existsb (String.eqb (String.string_of_list_ascii bytes)) white_space.

(** The white space at the head of the bytes [l] off, a character of one
    to three bytes at a time; [order] puts the bytes of a character in
    reading order ([rev] when [l] is a text from its end). *)
Fixpoint strip (order : list ascii → list ascii) (l : list ascii)
  : list ascii :=
  match l with
  | [] => []
  | c1 :: l1 =>
      if is_space [c1] then strip order l1 else
      match l1 with
      | [] => l
      | c2 :: l2 =>
          if is_space (order [c1; c2]) then strip order l2 else
          match l2 with
          | [] => l
          | c3 :: l3 =>
              if is_space (order [c1; c2; c3]) then strip order l3 else l
          end
      end
  end.

(** [ltrim] and [rtrim] of validator.js: [str.replace(/^\s+/g, '')], and
    the loop that steps back from the end while [/\s/] matches. *)
Definition ltrim (s : string) : string :=
  String.string_of_list_ascii (strip id (String.list_ascii_of_string s)).

Definition rtrim (s : string) : string :=
  String.string_of_list_ascii
    (rev (strip (@rev ascii) (rev (String.list_ascii_of_string s)))).

(** The [trim()] sanitizer of express-validator: [rtrim(ltrim(str))]. *)
Definition trim (s : string) : string := rtrim (ltrim s).

(** The [notEmpty()] validator. *)
Definition notEmpty (s : string) : bool := truthy s.

(** ** Documents *)

(** A stored document: CouchDB's [_id] and [_rev] next to the fields the
    application wrote.  The revision is the generation number of the
    revision token. *)
Record Doc (A : Type) : Type := mkDoc { _id : string; _rev : nat; body : A }.
Arguments mkDoc {A} _ _ _.
Arguments _id {A} _.
Arguments _rev {A} _.
Arguments body {A} _.

(** The fields of a user the routes read. *)
Record User : Type := mkUser { name : string; email : string }.

(** [maxParticipants] is [null] ([None]) or a number. *)
Record Event : Type := mkEvent {
  title : string;
  description : string;
  date : string;
  location : string;
  maxParticipants : option Z;
  creatorId : string;
  creatorName : string;
  createdAt : string;
  updatedAt : string
}.

Record Participant : Type := mkParticipant {
  eventId : string;
  userId : string;
  userName : string;
  userEmail : string;
  eventTitle : string;
  eventDate : string;
  rsvpDate : string
}.

(** ** The document store *)

(** An error thrown by nano: an HTTP failure carries [statusCode], any
    other failure (socket, timeout) does not. *)
Inductive Error : Type :=
| HttpError (code : nat)
| OtherError.

Definition statusCode (e : Error) : option nat :=
  match e with
  | HttpError code => Some code
  | OtherError => None
  end.

(** The outcome of an awaited promise. *)
Inductive Result (A : Type) : Type :=
| Resolved (a : A)
| Rejected (e : Error).
Arguments Resolved {A} a.
Arguments Rejected {A} e.

(** [Promise.all]: fulfilled when every promise is, rejected as soon as
    one of them is, with the reason of that one; rejections that arrive
    later are dropped.  [arrival i] is the time at which the promise at
    position [i] of the array settles; [first_rejection] is the earliest
    rejection from position [i] on, with its time (of two at the same time,
    the one at the lower position). *)
Fixpoint first_rejection {A} (arrival : nat → nat) (i : nat)
    (rs : list (Result A)) : option (nat * Error) :=
  match rs with
  | [] => None
  | Resolved _ :: rs' => first_rejection arrival (S i) rs'
  | Rejected e :: rs' =>
      match first_rejection arrival (S i) rs' with
      | Some (t, e') =>
          if (t <? arrival i)%nat then Some (t, e') else Some (arrival i, e)
      | None => Some (arrival i, e)
      end
  end.

Definition promise_all (arrival : nat → nat) (rs : list (Result unit))
  : Result unit :=
  match first_rejection arrival 0 rs with
  | Some (_, e) => Rejected e
  | None => Resolved tt
  end.

(** What [insert] answers. *)
Record InsertResponse : Type :=
  mkInsertResponse { ir_id : string; ir_rev : nat }.

(** A database: documents by id, each with its current revision. *)
Abbreviation DB A := (gmap string (nat * A)).

Definition db_get {A} (db : DB A) (id : string) : Result (Doc A) :=
  match db !! id with
  | Some (rev, a) => Resolved (mkDoc id rev a)
  | None => Rejected (HttpError 404)
  end.

(** [insert] of a document without [_id]: the store assigns [uuid]. *)
Definition db_post {A} (db : DB A) (uuid : string) (a : A)
  : Result InsertResponse * DB A :=
  match db !! uuid with
  | None => (Resolved (mkInsertResponse uuid 1), <[uuid := (1, a)]> db)
  | Some _ => (Rejected (HttpError 409), db)
  end.

(** [insert] of a document that carries [_id] and [_rev]: an update,
    refused when the revision token is stale. *)
Definition db_put {A} (db : DB A) (d : Doc A) : Result InsertResponse * DB A :=
  match db !! _id d with
  | Some (rev, _) =>
      if decide (rev = _rev d)
      then (Resolved (mkInsertResponse (_id d) (S rev)),
            <[_id d := (S rev, body d)]> db)
      else (Rejected (HttpError 409), db)
  | None => (Rejected (HttpError 409), db)
  end.

Definition db_destroy {A} (db : DB A) (id : string) (rev : nat)
  : Result unit * DB A :=
  match db !! id with
  | Some (r, _) =>
      if decide (r = rev)
      then (Resolved tt, delete id db)
      else (Rejected (HttpError 409), db)
  | None => (Rejected (HttpError 404), db)
  end.

(** Rows of a view come back ordered by document id. *)
Definition id_le {A} (a b : Doc A) : Prop := String.leb (_id a) (_id b) = true.

Global Instance id_le_dec {A} : RelDecision (@id_le A) :=
  fun a b => decide (String.leb (_id a) (_id b) = true).

Definition docs {A} (db : DB A) : list (Doc A) :=
  merge_sort id_le ((fun kv => mkDoc kv.1 kv.2.1 kv.2.2) <$> map_to_list db).

(** The view [queries/by_event] of the participants database:
    [if (doc.eventId) emit(doc.eventId, doc)], queried with [key]. *)
Definition by_event (key : string) (d : Doc Participant) : Prop :=
  truthy (eventId (body d)) = true ∧ eventId (body d) = key.

Global Instance by_event_dec key d : Decision (by_event key d) := _.

Definition view_by_event (db : DB Participant) (key : string)
  : list (Doc Participant) :=
  filter (by_event key) (docs db).

(** The three databases and the server's error console. *)
Record World : Type := mkWorld {
  users : DB User;
  events : DB Event;
  participants : DB Participant;
  console : list (string * Error)
}.

Definition set_events (db : DB Event) (w : World) : World :=
  mkWorld (users w) db (participants w) (console w).

Definition set_participants (db : DB Participant) (w : World) : World :=
  mkWorld (users w) (events w) db (console w).

Definition log (msg : string) (e : Error) (w : World) : World :=
  mkWorld (users w) (events w) (participants w) (console w ++ [(msg, e)]).

(** ** Programs over the store *)

(** What a route awaits or asks of its surroundings, indexed by the
    answer: the calls to the store, [Promise.all] over the answers of a
    fan-out, the clock and the console. *)
Inductive Op : Type → Type :=
| UsersGet (id : string) : Op (Result (Doc User))
| EventsGet (id : string) : Op (Result (Doc Event))
| EventsInsert (d : Doc Event) : Op (Result InsertResponse)
| EventsDestroy (id : string) (rev : nat) : Op (Result unit)
| ParticipantsGet (id : string) : Op (Result (Doc Participant))
| ParticipantsView (key : string) : Op (Result (list (Doc Participant)))
| ParticipantsInsert (p : Participant) : Op (Result InsertResponse)
| ParticipantsDestroy (id : string) (rev : nat) : Op (Result unit)
| PromiseAll (rs : list (Result unit)) : Op (Result unit)
| Now : Op string
| ConsoleError (msg : string) (e : Error) : Op unit.

Inductive Prog (A : Type) : Type :=
| Ret (a : A)
| Vis {X : Type} (op : Op X) (k : X → Prog A).
Arguments Ret {A} a.
Arguments Vis {A X} op k.

Fixpoint bind {A B} (p : Prog A) (f : A → Prog B) : Prog B :=
  match p with
  | Ret a => f a
  | Vis op k => Vis op (fun x => bind (k x) f)
  end.

Global Instance prog_ret : MRet Prog := fun A a => Ret a.
Global Instance prog_bind : MBind Prog := fun A B f p => bind p f.

Definition await {X} (op : Op X) : Prog X := Vis op Ret.

(** What the surroundings decide for one request: which store calls fail
    and how, the id the store assigns to an inserted document, the clock
    when the request reads it and when it reads it once more, and the time
    at which each answer of a fan-out arrives. *)
Record Env : Type := mkEnv {
  fault : ∀ X, Op X → option Error;
  uuid : string;
  clock : string;
  later : string;
  arrival : nat → nat
}.

(** A read, unless the call fails. *)
Definition reading {A} (env : Env) (w : World) (op : Op (Result A))
    (r : Result A) : Result A * World :=
  match fault env _ op with
  | Some e => (Rejected e, w)
  | None => (r, w)
  end.

(** A write, unless the call fails; a failed call leaves the database as
    it was. *)
Definition writing {A D} (env : Env) (w : World) (op : Op (Result A))
    (r : Result A * D) (set : D → World → World) : Result A * World :=
  match fault env _ op with
  | Some e => (Rejected e, w)
  | None => (r.1, set r.2 w)
  end.

Definition perform (env : Env) (w : World) {X} (op : Op X) : X * World :=
  match op in Op X return X * World with
  | UsersGet id => reading env w (UsersGet id) (db_get (users w) id)
  | EventsGet id => reading env w (EventsGet id) (db_get (events w) id)
  | EventsInsert d =>
      writing env w (EventsInsert d) (db_put (events w) d) set_events
  | EventsDestroy id rev =>
      writing env w (EventsDestroy id rev) (db_destroy (events w) id rev)
        set_events
  | ParticipantsGet id =>
      reading env w (ParticipantsGet id) (db_get (participants w) id)
  | ParticipantsView key =>
      reading env w (ParticipantsView key)
        (Resolved (view_by_event (participants w) key))
  | ParticipantsInsert p =>
      writing env w (ParticipantsInsert p)
        (db_post (participants w) (uuid env) p) set_participants
  | ParticipantsDestroy id rev =>
      writing env w (ParticipantsDestroy id rev)
        (db_destroy (participants w) id rev) set_participants
  | PromiseAll rs => (promise_all (arrival env) rs, w)
  | Now => (clock env, w)
  | ConsoleError msg e => (tt, log msg e w)
  end.

(** A request run alone, from its first store call to its response. *)
Fixpoint run {A} (env : Env) (w : World) (p : Prog A) : A * World :=
  match p with
  | Ret a => (a, w)
  | Vis op k => let '(x, w') := perform env w op in run env w' (k x)
  end.

(** One store call of a request. *)
Definition step {A} (env : Env) (w : World) (p : Prog A) : Prog A * World :=
  match p with
  | Ret a => (Ret a, w)
  | Vis op k => let '(x, w') := perform env w op in (k x, w')
  end.

(** Requests in flight together: the schedule names, tick by tick, the
    request whose pending store call is answered next. *)
Fixpoint interleave {A} (sched : list (nat * Env)) (w : World)
    (pool : list (Prog A)) : list (Prog A) * World :=
  match sched with
  | [] => (pool, w)
  | (i, env) :: sched' =>
      match pool !! i with
      | Some p =>
          let '(p', w') := step env w p in
          interleave sched' w' (<[i := p']> pool)
      | None => interleave sched' w pool
      end
  end.

(** ** Responses *)

Inductive Json : Type :=
| ErrorJson (error : string)
| ErrorsJson
| MessageJson (message : string)
| ParticipantJson (message : string) (id : string) (participant : Participant)
| EventJson (message : string) (id : string) (event : Doc Event).

Record Response : Type := mkResponse { status : nat; json : Json }.

Definition send (status : nat) (json : Json) : Prog Response :=
  mret (mkResponse status json).

(** ** routes/participants.js *)

(** [event.maxParticipants && rows.length >= event.maxParticipants]:
    [null] and [0] are falsy. *)
Definition full (event : Event) (rows : list (Doc Participant)) : bool :=
  match maxParticipants event with
  | Some c => negb (c =? 0)%Z && (c <=? Z.of_nat (length rows))%Z
  | None => false
  end.

(** The two checks inside the inner [try]; an error of the lookup is
    swallowed by its [catch] ("View might not exist, continue"). *)
Definition rsvp_checks (caller : Doc User) (event : Doc Event)
    (existing : Result (list (Doc Participant))) : option Response :=
  match existing with
  | Resolved rows =>
      let alreadyRSVPd :=
        existsb (fun row => String.eqb (userId (body row)) (_id caller)) rows in
      if alreadyRSVPd
      then Some (mkResponse 400 (ErrorJson "Already RSVP'd to this event"))
      else if full (body event) rows
      then Some (mkResponse 400 (ErrorJson "Event is full"))
      else None
  | Rejected _ => None
  end.

(** The participant document the route builds: the user and the event as
    they are at the time of the RSVP. *)
Definition new_participant (eventId : string) (caller : Doc User)
    (event : Doc Event) (now : string) : Participant :=
  {| eventId := eventId;
     userId := _id caller;
     userName := name (body caller);
     userEmail := email (body caller);
     eventTitle := title (body event);
     eventDate := date (body event);
     rsvpDate := now |}.

(** [POST /]: RSVP to an event.  [caller] is the user the auth middleware
    put on the request ([req.user], [req.userId = req.user._id]). *)
Definition rsvp_create (caller : Doc User) (body_eventId : option string)
  : Prog Response :=
  let eventId := trim (default EmptyString body_eventId) in
  if negb (notEmpty eventId) then send 400 ErrorsJson else
  r ← await (EventsGet eventId);
  match r with
  | Rejected _ => send 404 (ErrorJson "Event not found")
  | Resolved event =>
      existing ← await (ParticipantsView eventId);
      match rsvp_checks caller event existing with
      | Some res => mret res
      | None =>
          now ← await Now;
          let participant := new_participant eventId caller event now in
          response ← await (ParticipantsInsert participant);
          match response with
          | Rejected error =>
              _ ← await (ConsoleError "RSVP error:" error);
              send 500 (ErrorJson "Server error creating RSVP")
          | Resolved response =>
              send 201
                (ParticipantJson "RSVP successful" (ir_id response) participant)
          end
      end
  end.

(** The [catch] of both cancellation routes differs: only the by-id route
    looks at the status of the error. *)
Definition cancel_catch (error : Error) : Prog Response :=
  if decide (statusCode error = Some 404)
  then send 404 (ErrorJson "RSVP not found")
  else
    _ ← await (ConsoleError "Cancel RSVP error:" error);
    send 500 (ErrorJson "Server error cancelling RSVP").

(** [DELETE /:id]: cancel an RSVP by its id. *)
Definition cancel_rsvp (caller : Doc User) (id : string) : Prog Response :=
  r ← await (ParticipantsGet id);
  match r with
  | Rejected error => cancel_catch error
  | Resolved participant =>
      if decide (userId (body participant) ≠ _id caller)
      then send 403 (ErrorJson "Not authorized to cancel this RSVP")
      else
        r ← await (ParticipantsDestroy id (_rev participant));
        match r with
        | Rejected error => cancel_catch error
        | Resolved _ => send 200 (MessageJson "RSVP cancelled successfully")
        end
  end.

Definition cancel_pair_catch (error : Error) : Prog Response :=
  _ ← await (ConsoleError "Cancel RSVP error:" error);
  send 500 (ErrorJson "Server error cancelling RSVP").

(** [DELETE /event/:eventId/user/:userId]: cancel by event and user. *)
Definition cancel_rsvp_by_pair (caller : Doc User)
    (params_eventId params_userId : string) : Prog Response :=
  if decide (params_userId ≠ _id caller)
  then send 403 (ErrorJson "Not authorized to cancel this RSVP")
  else
    result ← await (ParticipantsView params_eventId);
    match result with
    | Rejected error => cancel_pair_catch error
    | Resolved rows =>
        match
          find (fun row => String.eqb (userId (body row)) params_userId) rows
        with
        | None => send 404 (ErrorJson "RSVP not found")
        | Some participant =>
            r ← await (ParticipantsDestroy (_id participant) (_rev participant));
            match r with
            | Rejected error => cancel_pair_catch error
            | Resolved _ => send 200 (MessageJson "RSVP cancelled successfully")
            end
        end
    end.

(** ** routes/events.js *)

(** [req.body] of [PUT /:id] and of [POST /], as [express.json()] hands it
    over; [None] is a field the request leaves out ([undefined]).  The
    text fields are strings and [maxParticipants], when there, is a number
    of integer value (a double: beyond 2^53 only the integers a double
    holds occur).  Bodies of another shape are not among the values of
    this record: a [null] capacity, which does not pass [isInt], and a
    number written as a string, which [isInt] accepts as well. *)
Module Body.
Record t : Type := mk {
  title : option string;
  description : option string;
  date : option string;
  location : option string;
  maxParticipants : option Z
}.
End Body.

(** [if (field) event.field = field]. *)
Definition assign (field : option string) (old : string) : string :=
  match field with
  | Some s => if truthy s then s else old
  | None => old
  end.

(** The "Update fields" block. *)
Definition update_fields (b : Body.t) (now : string) (event : Event) : Event :=
  {| title := assign (Body.title b) (title event);
     description := assign (Body.description b) (description event);
     date := assign (Body.date b) (date event);
     location := assign (Body.location b) (location event);
     maxParticipants :=
       match Body.maxParticipants b with
       | Some n => Some n
       | None => maxParticipants event
       end;
     creatorId := creatorId event;
     creatorName := creatorName event;
     createdAt := createdAt event;
     updatedAt := now |}.

(** [optional()]: a validator applies only to a field that is present. *)
Definition optional {A} (check : A → bool) (field : option A) : bool :=
  from_option check true field.

(** [isInt({ min })] on a number of integer value: the validator reads the
    number as [String] prints it, which is in decimal notation below 10^21
    and in exponent notation, which the pattern of [isInt] does not match,
    from there on. *)
Definition isInt (min n : Z) : bool :=
  (Z.abs n <? 10 ^ 21)%Z && (min <=? n)%Z.

(** The body as the sanitizers of the validation chain leave it. *)
Definition sanitized (b : Body.t) : Body.t :=
  {| Body.title := trim <$> Body.title b;
     Body.description := trim <$> Body.description b;
     Body.date := Body.date b;
     Body.location := trim <$> Body.location b;
     Body.maxParticipants := Body.maxParticipants b |}.

Section Events.

(** The [isISO8601()] validator of validator.js. *)
Variable isISO8601 : string → bool.

(** [validationResult(req).isEmpty()] for the chain of [PUT /:id], on the
    sanitized body. *)
Definition update_valid (b : Body.t) : bool :=
  optional notEmpty (Body.title b)
  && optional notEmpty (Body.description b)
  && optional isISO8601 (Body.date b)
  && optional notEmpty (Body.location b)
  && optional (isInt 1) (Body.maxParticipants b).

Definition update_catch (error : Error) : Prog Response :=
  if decide (statusCode error = Some 404)
  then send 404 (ErrorJson "Event not found")
  else
    _ ← await (ConsoleError "Update event error:" error);
    send 500 (ErrorJson "Server error updating event").

(** [PUT /:id]: update an event. *)
Definition update_event (caller : Doc User) (id : string) (req_body : Body.t)
  : Prog Response :=
  let b := sanitized req_body in
  if negb (update_valid b) then send 400 ErrorsJson else
  r ← await (EventsGet id);
  match r with
  | Rejected error => update_catch error
  | Resolved event =>
      if decide (creatorId (body event) ≠ _id caller)
      then send 403 (ErrorJson "Not authorized to update this event")
      else
        now ← await Now;
        let event :=
          mkDoc (_id event) (_rev event) (update_fields b now (body event)) in
        response ← await (EventsInsert event);
        match response with
        | Rejected error => update_catch error
        | Resolved response =>
            send 200
              (EventJson "Event updated successfully" (ir_id response) event)
        end
  end.

End Events.

(** [rows.map(row => participantsDB.destroy(row.doc._id, row.doc._rev))]:
    every request is sent, whatever the others answer.  The deletions are on
    different documents, so the order in which the store serves them does
    not change what is stored; they are taken in the order of the rows, and
    the world after the fan-out is the one in which every request has been
    answered.  The order in which the answers arrive, which decides what
    [Promise.all] reports, is left to the surroundings. *)
Fixpoint destroy_all (rows : list (Doc Participant))
  : Prog (list (Result unit)) :=
  match rows with
  | [] => mret []
  | row :: rows' =>
      r ← await (ParticipantsDestroy (_id row) (_rev row));
      rs ← destroy_all rows';
      mret (r :: rs)
  end.

(** The inner [try] of [DELETE /:id] with its [catch]. *)
Definition delete_participants (id : string) : Prog unit :=
  participants ← await (ParticipantsView id);
  match participants with
  | Rejected error => await (ConsoleError "Error deleting participants:" error)
  | Resolved rows =>
      if (0 <? length rows)%nat
      then
        deletePromises ← destroy_all rows;
        all ← await (PromiseAll deletePromises);
        match all with
        | Rejected error =>
            await (ConsoleError "Error deleting participants:" error)
        | Resolved _ => mret tt
        end
      else mret tt
  end.

Definition delete_catch (error : Error) : Prog Response :=
  if decide (statusCode error = Some 404)
  then send 404 (ErrorJson "Event not found")
  else
    _ ← await (ConsoleError "Delete event error:" error);
    send 500 (ErrorJson "Server error deleting event").

(** [DELETE /:id]: delete an event and all linked participants. *)
Definition delete_event (caller : Doc User) (id : string) : Prog Response :=
  r ← await (EventsGet id);
  match r with
  | Rejected error => delete_catch error
  | Resolved event =>
      if decide (creatorId (body event) ≠ _id caller)
      then send 403 (ErrorJson "Not authorized to delete this event")
      else
        _ ← delete_participants id;
        r ← await (EventsDestroy id (_rev event));
        match r with
        | Rejected error => delete_catch error
        | Resolved _ =>
            send 200 (MessageJson "Event and linked RSVPs deleted successfully")
        end
  end.

(** ** middleware/auth.js *)

(** The middleware either answers itself or calls [next()] with the user
    on the request. *)
Inductive AuthOutcome : Type :=
| Refused (res : Response)
| Next (user : Doc User).

Section Auth.

(** [jwt.verify(token, process.env.JWT_SECRET)]: the [id] of the decoded
    payload, or nothing when it throws (bad signature, malformed or
    expired token). *)
Variable jwt_verify : string → option string.

Definition auth (authorization : option string) : Prog AuthOutcome :=
  let token := replace "Bearer " EmptyString <$> authorization in
  if negb (from_option truthy false token)
  then mret (Refused (mkResponse 401 (ErrorJson "Authentication required")))
  else
    match jwt_verify (default EmptyString token) with
    | None => mret (Refused (mkResponse 401 (ErrorJson "Invalid token")))
    | Some decoded_id =>
        r ← await (UsersGet decoded_id);
        match r with
        | Resolved user => mret (Next user)
        | Rejected _ =>
            mret (Refused (mkResponse 401 (ErrorJson "User not found")))
        end
    end.

End Auth.

(** ** Requests served one after the other *)

(** A request to one of the mutating routes, after authentication. *)
Inductive Request : Type :=
| PostParticipant (caller : Doc User) (body_eventId : option string)
| DeleteParticipant (caller : Doc User) (id : string)
| DeleteParticipantOf (caller : Doc User) (params_eventId params_userId : string)
| PutEvent (caller : Doc User) (id : string) (req_body : Body.t)
| DeleteEvent (caller : Doc User) (id : string).

Section Router.

Variable isISO8601 : string → bool.

Definition route (r : Request) : Prog Response :=
  match r with
  | PostParticipant caller b => rsvp_create caller b
  | DeleteParticipant caller id => cancel_rsvp caller id
  | DeleteParticipantOf caller e u => cancel_rsvp_by_pair caller e u
  | PutEvent caller id b => update_event isISO8601 caller id b
  | DeleteEvent caller id => delete_event caller id
  end.

(** Each request runs to its response before the next one starts. *)
Fixpoint serve (reqs : list (Env * Request)) (w : World) : World :=
  match reqs with
  | [] => w
  | (env, r) :: reqs' => serve reqs' (run env w (route r)).2
  end.

End Router.

(** The by-event lookup of an RSVP creation is answered. *)
Definition lookup_answered (er : Env * Request) : Prop :=
  match er.2 with
  | PostParticipant _ b =>
      fault er.1 _ (ParticipantsView (trim (default EmptyString b))) = None
  | _ => True
  end.

Definition is_rsvp (r : Request) : Prop :=
  match r with
  | PostParticipant _ _ => True
  | _ => False
  end.

(** ** The invariants of the data model *)

(** No event with a capacity has more participants than the capacity. *)
Definition within_capacity (w : World) : Prop :=
  ∀ id rev ev c,
    events w !! id = Some (rev, ev) →
    maxParticipants ev = Some c → c ≠ 0%Z →
    (Z.of_nat (length (view_by_event (participants w) id)) ≤ c)%Z.

(** No two participant documents for the same event and user. *)
Definition one_rsvp_per_pair (w : World) : Prop :=
  ∀ k1 k2 r1 r2 p1 p2,
    participants w !! k1 = Some (r1, p1) →
    participants w !! k2 = Some (r2, p2) →
    eventId p1 = eventId p2 → userId p1 = userId p2 →
    k1 = k2.


(** ** Auxiliary notions *)

(** What the store answers to the deletion of one row of a fan-out. *)
Definition outcome (env : Env) (d : Doc Participant) : Result unit :=
  match fault env _ (ParticipantsDestroy (_id d) (_rev d)) with
  | Some e => Rejected e
  | None => Resolved tt
  end.

(** The store calls that add a participant. *)
Definition inserts_participant {X} (op : Op X) : bool :=
  match op with
  | ParticipantsInsert _ => true
  | _ => false
  end.

Fixpoint never_inserts {A} (p : Prog A) : Prop :=
  match p with
  | Ret _ => True
  | Vis op k => inserts_participant op = false ∧ ∀ x, never_inserts (k x)
  end.

(** The response of a finished request. *)
Definition response {A} (p : Prog A) : option A :=
  match p with
  | Ret a => Some a
  | Vis _ _ => None
  end.

(** ** The reading routes and event creation *)

(** The view [queries/by_user] of the participants database:
    [if (doc.userId) emit(doc.userId, doc)], queried with [key]. *)
Definition by_user (key : string) (d : Doc Participant) : Prop :=
  truthy (userId (body d)) = true ∧ userId (body d) = key.

Global Instance by_user_dec key d : Decision (by_user key d) := _.

Definition view_by_user (db : DB Participant) (key : string)
  : list (Doc Participant) :=
  filter (by_user key) (docs db).

(** The view [queries/by_creator] of the events database:
    [if (doc.creatorId) emit(doc.creatorId, doc)], queried with [key]. *)
Definition by_creator (key : string) (d : Doc Event) : Prop :=
  truthy (creatorId (body d)) = true ∧ creatorId (body d) = key.

Global Instance by_creator_dec key d : Decision (by_creator key d) := _.

Definition view_by_creator (db : DB Event) (key : string) : list (Doc Event) :=
  filter (by_creator key) (docs db).

(** The calls of all routes: those of the mutating routes, the two other
    views, the listing of the events, the insertion of a new event, and a
    further reading of the clock by a request that has read it before. *)
Inductive Call : Type → Type :=
| Stored {X : Type} (op : Op X) : Call X
| ParticipantsViewByUser (key : string)
  : Call (Result (list (Doc Participant)))
| EventsList : Call (Result (list (Doc Event)))
| EventsViewByCreator (key : string) : Call (Result (list (Doc Event)))
| EventsPost (event : Event) : Call (Result InsertResponse)
| NowAgain : Call string.

Inductive Script (A : Type) : Type :=
| Done (a : A)
| Ask {X : Type} (c : Call X) (k : X → Script A).
Arguments Done {A} a.
Arguments Ask {A X} c k.

Fixpoint script_bind {A B} (s : Script A) (f : A → Script B) : Script B :=
  match s with
  | Done a => f a
  | Ask c k => Ask c (fun x => script_bind (k x) f)
  end.

Global Instance script_ret : MRet Script := fun A a => Done a.
Global Instance script_mbind : MBind Script := fun A B f s => script_bind s f.

Definition ask {X} (c : Call X) : Script X := Ask c Done.

(** A mutating route as a script. *)
Fixpoint script {A} (p : Prog A) : Script A :=
  match p with
  | Ret a => Done a
  | Vis op k => Ask (Stored op) (fun x => script (k x))
  end.

(** The surroundings of a request, with the failures of the further
    calls. *)
Record Setting : Type := mkSetting {
  env : Env;
  call_fault : ∀ X, Call X → option Error
}.

Definition answer (s : Setting) (w : World) {X} (c : Call X) : X * World :=
  match c in Call X return X * World with
  | Stored op => perform (env s) w op
  | ParticipantsViewByUser key =>
      match call_fault s _ (ParticipantsViewByUser key) with
      | Some e => (Rejected e, w)
      | None => (Resolved (view_by_user (participants w) key), w)
      end
  | EventsList =>
      match call_fault s _ EventsList with
      | Some e => (Rejected e, w)
      | None => (Resolved (docs (events w)), w)
      end
  | EventsViewByCreator key =>
      match call_fault s _ (EventsViewByCreator key) with
      | Some e => (Rejected e, w)
      | None => (Resolved (view_by_creator (events w) key), w)
      end
  | EventsPost event =>
      match call_fault s _ (EventsPost event) with
      | Some e => (Rejected e, w)
      | None =>
          let r := db_post (events w) (uuid (env s)) event in
          (r.1, set_events r.2 w)
      end
  | NowAgain => (later (env s), w)
  end.

Fixpoint execute {A} (s : Setting) (w : World) (p : Script A) : A * World :=
  match p with
  | Done a => (a, w)
  | Ask c k => let '(x, w') := answer s w c in execute s w' (k x)
  end.

(** What the reading routes and event creation answer. *)
Inductive Payload : Type :=
| Plain (j : Json)
| ParticipantsPayload (participants : list (Doc Participant)) (count : nat)
| RsvpsPayload (rsvps : list (Doc Participant))
| EventsPayload (events : list (Doc Event))
| EventPayload (event : Doc Event)
| CreatedPayload (message : string) (id : string) (event : Event).

Record Reply : Type := mkReply { code : nat; payload : Payload }.

Definition reply (code : nat) (payload : Payload) : Script Reply :=
  mret (mkReply code payload).

(** A row as the routes hand it out, [{ id: row.doc._id, ...row.doc }]:
    the document, whose [_id] is the added [id]. *)
Definition with_id {A} (row : Doc A) : Doc A := row.

(** [GET /event/:eventId] of routes/participants.js. *)
Definition get_participants (params_eventId : string) : Script Reply :=
  result ← ask (Stored (ParticipantsView params_eventId));
  match result with
  | Rejected error =>
      _ ← ask (Stored (ConsoleError "Get participants error:" error));
      reply 500 (Plain (ErrorJson "Server error fetching participants"))
  | Resolved rows =>
      let participants := with_id <$> rows in
      reply 200 (ParticipantsPayload participants (length participants))
  end.

(** [GET /user/:userId] of routes/participants.js. *)
Definition get_user_rsvps (params_userId : string) : Script Reply :=
  result ← ask (ParticipantsViewByUser params_userId);
  match result with
  | Rejected error =>
      _ ← ask (Stored (ConsoleError "Get user RSVPs error:" error));
      reply 500 (Plain (ErrorJson "Server error fetching RSVPs"))
  | Resolved rows => reply 200 (RsvpsPayload (with_id <$> rows))
  end.

(** [GET /my-rsvps] of routes/participants.js. *)
Definition get_my_rsvps (caller : Doc User) : Script Reply :=
  result ← ask (ParticipantsViewByUser (_id caller));
  match result with
  | Rejected error =>
      _ ← ask (Stored (ConsoleError "Get my RSVPs error:" error));
      reply 500 (Plain (ErrorJson "Server error fetching RSVPs"))
  | Resolved rows => reply 200 (RsvpsPayload (with_id <$> rows))
  end.

(** [GET /] of routes/events.js: every document of the database but the
    design documents. *)
Definition get_events : Script Reply :=
  result ← ask EventsList;
  match result with
  | Rejected error =>
      _ ← ask (Stored (ConsoleError "Get events error:" error));
      reply 500 (Plain (ErrorJson "Server error fetching events"))
  | Resolved rows =>
      reply 200
        (EventsPayload
           (with_id
              <$> List.filter
                    (fun row => negb (String.prefix "_design" (_id row))) rows))
  end.

(** [GET /:id] of routes/events.js. *)
Definition get_event (id : string) : Script Reply :=
  r ← ask (Stored (EventsGet id));
  match r with
  | Resolved event => reply 200 (EventPayload (with_id event))
  | Rejected error =>
      if decide (statusCode error = Some 404)
      then reply 404 (Plain (ErrorJson "Event not found"))
      else
        _ ← ask (Stored (ConsoleError "Get event error:" error));
        reply 500 (Plain (ErrorJson "Server error fetching event"))
  end.

(** [GET /creator/:userId] of routes/events.js. *)
Definition get_events_by_creator (params_userId : string) : Script Reply :=
  result ← ask (EventsViewByCreator params_userId);
  match result with
  | Rejected error =>
      _ ← ask (Stored (ConsoleError "Get events by creator error:" error));
      reply 500 (Plain (ErrorJson "Server error fetching events"))
  | Resolved rows => reply 200 (EventsPayload (with_id <$> rows))
  end.

(** [maxParticipants || null]. *)
Definition or_null (n : option Z) : option Z :=
  match n with
  | Some n => if (n =? 0)%Z then None else Some n
  | None => None
  end.

(** ** Bodies as JSON carries them *)

(** [maxParticipants] in the JSON body the client's forms send: left out,
    [null] or a number of integer value. *)
Inductive JsonInt : Type :=
| JAbsent
| JNull
| JInt (n : Z).

Module Wire.
Record t : Type := mk {
  title : option string;
  description : option string;
  date : option string;
  location : option string;
  maxParticipants : JsonInt
}.
End Wire.

(** [body('maxParticipants').optional().isInt({ min: 1 })] on such a
    body: [optional()] skips a field that is [undefined] only, and [isInt]
    rejects [null]; so a body with a [null] capacity has validation errors
    whatever its other fields, and a body with a number goes on to the
    checks of the chain. *)
Definition received (wire : Wire.t) : option Body.t :=
  match Wire.maxParticipants wire with
  | JNull => None
  | JAbsent =>
      Some (Body.mk (Wire.title wire) (Wire.description wire) (Wire.date wire)
              (Wire.location wire) None)
  | JInt n =>
      Some (Body.mk (Wire.title wire) (Wire.description wire) (Wire.date wire)
              (Wire.location wire) (Some n))
  end.

Section EventCreation.

Variable isISO8601 : string → bool.

(** [validationResult(req).isEmpty()] for the chain of [POST /], on the
    sanitized body: the four text fields are required (a field left out is
    checked as the empty string), the capacity is optional. *)
Definition create_valid (b : Body.t) : bool :=
  notEmpty (default EmptyString (Body.title b))
  && notEmpty (default EmptyString (Body.description b))
  && isISO8601 (default EmptyString (Body.date b))
  && notEmpty (default EmptyString (Body.location b))
  && optional (isInt 1) (Body.maxParticipants b).

(** The event document [POST /] builds. *)
Definition new_event (b : Body.t) (caller : Doc User)
    (createdAt updatedAt : string) : Event :=
  {| title := default EmptyString (Body.title b);
     description := default EmptyString (Body.description b);
     date := default EmptyString (Body.date b);
     location := default EmptyString (Body.location b);
     maxParticipants := or_null (Body.maxParticipants b);
     creatorId := _id caller;
     creatorName := name (body caller);
     createdAt := createdAt;
     updatedAt := updatedAt |}.

(** [POST /] of routes/events.js: create an event.  The handler reads the
    clock twice, for [createdAt] and for [updatedAt]. *)
Definition create_event (caller : Doc User) (req_body : Body.t)
  : Script Reply :=
  let b := sanitized req_body in
  if negb (create_valid b) then reply 400 (Plain ErrorsJson) else
  createdAt ← ask (Stored Now);
  updatedAt ← ask NowAgain;
  let event := new_event b caller createdAt updatedAt in
  response ← ask (EventsPost event);
  match response with
  | Rejected error =>
      _ ← ask (Stored (ConsoleError "Create event error:" error));
      reply 500 (Plain (ErrorJson "Server error creating event"))
  | Resolved response =>
      reply 201
        (CreatedPayload "Event created successfully" (ir_id response) event)
  end.

(** [POST /events] and [PUT /events/:id] on a JSON body. *)
Definition post_event (caller : Doc User) (wire : Wire.t) : Script Reply :=
  match received wire with
  | None => reply 400 (Plain ErrorsJson)
  | Some b => create_event caller b
  end.

Definition put_event (caller : Doc User) (id : string) (wire : Wire.t)
  : Prog Response :=
  match received wire with
  | None => send 400 ErrorsJson
  | Some b => update_event isISO8601 caller id b
  end.

End EventCreation.

(** ** The client: api.js and the components *)

(** [authHeader()] of api.js: [`Bearer ${getToken()}`], where [getToken()]
    is the stored token or [null]. *)
Definition authHeader (token : option string) : string :=
  "Bearer " ++ default "null" token.

(** [isRSVPd] of EventsList.jsx, over the RSVPs loaded from
    [/participants/my-rsvps]. *)
Definition isRSVPd (myRSVPs : list (Doc Participant)) (id : string) : bool :=
  existsb (fun rsvp => String.eqb (eventId (body rsvp)) id) myRSVPs.

(** [filteredEvents] of EventsList.jsx; [user_id] is [user.id]. *)
Definition filteredEvents (filter : string) (user_id : string)
    (myRSVPs : list (Doc Participant)) (events : list (Doc Event))
  : list (Doc Event) :=
  List.filter
    (fun event =>
       if String.eqb filter "my-events"
       then String.eqb (creatorId (body event)) user_id
       else if String.eqb filter "my-rsvps"
       then isRSVPd myRSVPs (_id event)
       else true)
    events.

(** The [disabled] attribute of the RSVP button of EventDetails.jsx:
    [loading || (!isRSVPd && event.maxParticipants &&
     participants.length >= event.maxParticipants)]. *)
Definition rsvp_disabled (loading rsvpd : bool) (event : Event)
    (participants : list (Doc Participant)) : bool :=
  loading || (negb rsvpd && full event participants).

(** [handleRSVP] of EventDetails.jsx: the request it sends for the event
    [id], as the user [user] whose [user.id] is the id of their document. *)
Definition handleRSVP (user : Doc User) (rsvpd : bool) (id : string)
  : Request :=
  if rsvpd
  then DeleteParticipantOf user id (_id user)
  else PostParticipant user (Some id).

(** The fields of the create and edit forms, as text. *)
Record FormData : Type := mkFormData {
  form_title : string;
  form_description : string;
  form_date : string;
  form_location : string;
  form_maxParticipants : string
}.

Section Forms.

(** [parseInt], with nothing for [NaN]. *)
Variable parseInt : string → option Z.

(** [eventData] of [handleSubmit] in CreateEvent.jsx and [updateData] of
    [handleUpdate] in EventDetails.jsx:
    [{ ...formData, maxParticipants: formData.maxParticipants
         ? parseInt(formData.maxParticipants) : null }]; a [NaN] is
    serialized as [null]. *)
Definition eventData (formData : FormData) : Wire.t :=
  {| Wire.title := Some (form_title formData);
     Wire.description := Some (form_description formData);
     Wire.date := Some (form_date formData);
     Wire.location := Some (form_location formData);
     Wire.maxParticipants :=
       if truthy (form_maxParticipants formData)
       then match parseInt (form_maxParticipants formData) with
            | Some n => JInt n
            | None => JNull
            end
       else JNull |}.

End Forms.

(** ** The routes by what they write *)

(** A request to one of the reading routes. *)
Inductive Reading : Type :=
| GetParticipants (params_eventId : string)
| GetUserRsvps (params_userId : string)
| GetMyRsvps (caller : Doc User)
| GetEvents
| GetEvent (id : string)
| GetEventsByCreator (params_userId : string).

Definition reading_route (r : Reading) : Script Reply :=
  match r with
  | GetParticipants e => get_participants e
  | GetUserRsvps u => get_user_rsvps u
  | GetMyRsvps caller => get_my_rsvps caller
  | GetEvents => get_events
  | GetEvent id => get_event id
  | GetEventsByCreator u => get_events_by_creator u
  end.

(** The store calls that write the events database. *)
Definition writes_events {X} (op : Op X) : bool :=
  match op with
  | EventsInsert _ | EventsDestroy _ _ => true
  | _ => false
  end.

(** The store calls that write the participants database. *)
Definition writes_participants {X} (op : Op X) : bool :=
  match op with
  | ParticipantsInsert _ | ParticipantsDestroy _ _ => true
  | _ => false
  end.

(** A program none of whose store calls is among the [bad] ones. *)
Fixpoint avoids {A} (bad : ∀ X, Op X → bool) (p : Prog A) : Prop :=
  match p with
  | Ret _ => True
  | Vis op k => bad _ op = false ∧ ∀ x, avoids bad (k x)
  end.

(** ** A small instance: two events, a few users *)

Module Sample.

Definition no_fault : ∀ X, Op X → option Error := fun _ _ => None.

(** The design document of the participants database is missing: every
    query of the view is answered 404. *)
Definition no_view : ∀ X, Op X → option Error :=
  fun _ op =>
    match op with
    | ParticipantsView _ => Some (HttpError 404)
    | _ => None
    end.

Definition alice : Doc User :=
  mkDoc "u-alice" 1 (mkUser "Alice" "alice@example.org").
Definition bob : Doc User :=
  mkDoc "u-bob" 1 (mkUser "Bob" "bob@example.org").

(** An event with room for one. *)
Definition standup : Event :=
  mkEvent "Standup" "Daily sync" "2025-01-01T09:00:00Z" "Room A" (Some 1%Z)
    "u-alice" "Alice" "2024-12-01T00:00:00Z" "2024-12-01T00:00:00Z".

(** An event without capacity. *)
Definition meetup : Event :=
  mkEvent "Meetup" "Monthly" "2025-02-01T18:00:00Z" "Hall" None
    "u-bob" "Bob" "2024-12-02T00:00:00Z" "2024-12-02T00:00:00Z".

Definition world : World :=
  mkWorld {[ "u-alice" := (1, body alice); "u-bob" := (1, body bob) ]}
    {[ "e1" := (1, standup); "e2" := (1, meetup) ]} ∅ [].

(** The participant a user's RSVP to an event leaves behind. *)
Definition rsvp (user : Doc User) (e : string) (ev : Event) : nat * Participant :=
  (1%nat, new_participant e user (mkDoc e 1 ev) "2024-12-24T12:00:00Z").

Definition with_participants (db : DB Participant) : World :=
  set_participants db world.

(** The standup is full: Alice has its one place. *)
Definition world_full : World :=
  with_participants {[ "p1" := rsvp alice "e1" standup ]}.

(** Alice and Bob go to the meetup, Alice to the standup as well. *)
Definition world_rsvps : World :=
  with_participants
    {[ "p1" := rsvp alice "e2" meetup;
       "p2" := rsvp bob "e2" meetup;
       "p3" := rsvp alice "e1" standup ]}.

(** Two participants for Alice at the meetup. *)
Definition world_twice : World :=
  with_participants
    {[ "p1" := rsvp alice "e2" meetup; "p2" := rsvp alice "e2" meetup ]}.

(** The store refuses to delete the participants p1 and p2. *)
Definition destroys_fail : ∀ X, Op X → option Error :=
  fun _ op =>
    match op with
    | ParticipantsDestroy id _ =>
        if String.eqb id "p1" then Some (HttpError 500)
        else if String.eqb id "p2" then Some (HttpError 503)
        else None
    | _ => None
    end.

(** The store refuses to delete p1 only. *)
Definition destroy_p1_fails : ∀ X, Op X → option Error :=
  fun _ op =>
    match op with
    | ParticipantsDestroy id _ =>
        if String.eqb id "p1" then Some (HttpError 500) else None
    | _ => None
    end.

(** The answers of a fan-out arrive in the order of the rows, or the
    second before the first. *)
Definition in_order : nat → nat := id.
Definition second_first : nat → nat := fun i => (1 - i)%nat.

Definition env1 : Env :=
  mkEnv no_fault "p1" "2025-01-01T08:00:00Z" "2025-01-01T08:00:00Z" in_order.
Definition env2 : Env :=
  mkEnv no_fault "p2" "2025-01-01T08:00:01Z" "2025-01-01T08:00:01Z" in_order.
Definition env2_no_view : Env :=
  mkEnv no_view "p2" "2025-01-01T08:00:01Z" "2025-01-01T08:00:01Z" in_order.
Definition env_destroys_fail : Env :=
  mkEnv destroys_fail "p9" "2025-01-01T08:00:02Z" "2025-01-01T08:00:02Z"
    in_order.
Definition env_destroys_fail_second_first : Env :=
  mkEnv destroys_fail "p9" "2025-01-01T08:00:02Z" "2025-01-01T08:00:02Z"
    second_first.
Definition env_destroy_p1_fails : Env :=
  mkEnv destroy_p1_fails "p9" "2025-01-01T08:00:02Z" "2025-01-01T08:00:02Z"
    in_order.

(** Two requests whose store calls alternate. *)
Definition alternate : list (nat * Env) :=
  [(0, env1); (1, env2); (0, env1); (1, env2);
   (0, env1); (1, env2); (0, env1); (1, env2)].

(** A verifier that accepts the tokens ["jwt:<id>"]. *)
Definition jwt_verify (token : string) : option string :=
  if String.prefix "jwt:" token
  then Some (String.substring 4 (String.length token - 4) token)
  else None.

(** A stand-in for the date validator: a year, a dash and more. *)
Definition isISO8601 (s : string) : bool :=
  (10 <=? String.length s)%nat && bool_decide (String.get 4 s = Some "-"%char).

End Sample.

(** ** Further pieces of the small instance *)

Module Demo.

Definition no_call_fault : ∀ X, Call X → option Error := fun _ _ => None.

(** The store answers every call; an inserted event gets the id [e3]. *)
Definition setting : Setting :=
  mkSetting
    (mkEnv Sample.no_fault "e3" "2025-01-02T10:00:00Z" "2025-01-02T10:00:01Z"
       Sample.in_order)
    no_call_fault.

(** The same, with the views of the participants database missing. *)
Definition setting_no_view : Setting :=
  mkSetting Sample.env2_no_view no_call_fault.

(** The store refuses to delete events. *)
Definition events_stay : ∀ X, Op X → option Error :=
  fun _ op =>
    match op with
    | EventsDestroy _ _ => Some (HttpError 500)
    | _ => None
    end.

Definition env_events_stay : Env :=
  mkEnv events_stay "p9" "2025-01-02T10:00:00Z" "2025-01-02T10:00:00Z"
    Sample.in_order.

(** The store has lost the participant or the view (404) on every read of
    the participants database. *)
Definition participants_gone : ∀ X, Op X → option Error :=
  fun _ op =>
    match op with
    | ParticipantsGet _ | ParticipantsView _ => Some (HttpError 404)
    | _ => None
    end.

Definition env_participants_gone : Env :=
  mkEnv participants_gone "p9" "2025-01-02T10:00:00Z" "2025-01-02T10:00:00Z"
    Sample.in_order.

Definition party : Body.t :=
  Body.mk (Some " Party ") (Some "Bring cake") (Some "2025-03-01T10:00:00Z")
    (Some "Garden") None.

(** The create form filled in, the capacity left empty. *)
Definition form : FormData :=
  mkFormData "Party" "Bring cake" "2025-03-01T10:00" "Garden" EmptyString.

(** A stand-in for [parseInt]: one decimal digit. *)
Definition parseInt (s : string) : option Z :=
  match s with
  | String c EmptyString =>
      let n := nat_of_ascii c in
      if (48 <=? n)%nat && (n <=? 57)%nat
      then Some (Z.of_nat (n - 48))
      else None
  | _ => None
  end.

End Demo.

(** * Properties *)

(** ** Running programs *)

Lemma run_bind {A B} env w (p : Prog A) (f : A → Prog B) :
  run env w (p ≫= f) = let '(a, w') := run env w p in run env w' (f a).
Proof.
  revert w. induction p as [a | X op k IH]; intros w; cbn.
  - reflexivity.
  - destruct (perform env w op) as [x w']. apply IH.
Qed.

Lemma run_await {X A} env w (op : Op X) (f : X → Prog A) :
  run env w (await op ≫= f)
  = run env (perform env w op).2 (f (perform env w op).1).
Proof. cbn. destruct (perform env w op); reflexivity. Qed.

(** A request whose store calls are answered with no other request in
    between does what [run] says. *)
Lemma interleave_alone {A} env (p : Prog A) : ∀ w,
  ∃ n,
    interleave (replicate n (0, env)) w [p]
    = ([Ret (run env w p).1], (run env w p).2).
Proof.
  induction p as [a | X op k IH]; intros w.
  - exists 0. reflexivity.
  - destruct (IH (perform env w op).1 (perform env w op).2) as [n Hn].
    exists (S n). cbn. destruct (perform env w op) as [x w']. exact Hn.
Qed.

Lemma reading_ok {A} env w (op : Op (Result A)) r :
  fault env _ op = None → reading env w op r = (r, w).
Proof. intros H. unfold reading. rewrite H. reflexivity. Qed.

Lemma reading_fault {A} env w (op : Op (Result A)) r e :
  fault env _ op = Some e → reading env w op r = (Rejected e, w).
Proof. intros H. unfold reading. rewrite H. reflexivity. Qed.

Lemma writing_ok {A D} env w (op : Op (Result A)) (r : Result A * D) set :
  fault env _ op = None → writing env w op r set = (r.1, set r.2 w).
Proof. intros H. unfold writing. rewrite H. reflexivity. Qed.

Lemma writing_fault {A D} env w (op : Op (Result A)) (r : Result A * D) set e :
  fault env _ op = Some e → writing env w op r set = (Rejected e, w).
Proof. intros H. unfold writing. rewrite H. reflexivity. Qed.

Lemma db_get_Some {A} (db : DB A) id rev a :
  db !! id = Some (rev, a) → db_get db id = Resolved (mkDoc id rev a).
Proof. intros H. unfold db_get. rewrite H. reflexivity. Qed.

Lemma db_get_None {A} (db : DB A) id :
  db !! id = None → db_get db id = Rejected (HttpError 404).
Proof. intros H. unfold db_get. rewrite H. reflexivity. Qed.

Lemma truthy_true s : truthy s = true ↔ s ≠ EmptyString.
Proof.
  unfold truthy. destruct (String.eqb_spec s EmptyString); cbn; split; intros;
    congruence.
Qed.

(** ** The authentication middleware *)

Section AuthProperties.

Variable jwt_verify : string → option string.

Lemma auth_no_token env w authorization :
  from_option truthy false (replace "Bearer " EmptyString <$> authorization)
= false →
  run env w (auth jwt_verify authorization)
  = (Refused (mkResponse 401 (ErrorJson "Authentication required")), w).
Proof. intros H. unfold auth. rewrite H. reflexivity. Qed.

Lemma auth_token env w authorization token :
  replace "Bearer " EmptyString <$> authorization = Some token →
  token ≠ EmptyString →
  run env w (auth jwt_verify authorization)
  = match jwt_verify token with
    | None => (Refused (mkResponse 401 (ErrorJson "Invalid token")), w)
    | Some sub =>
        match (perform env w (UsersGet sub)).1 with
        | Resolved user => (Next user, w)
        | Rejected _ =>
            (Refused (mkResponse 401 (ErrorJson "User not found")), w)
        end
    end.
Proof.
  intros Ht Hne. unfold auth. rewrite Ht.
  change (from_option truthy false (Some token)) with (truthy token).
  change (default EmptyString (Some token)) with token.
  apply truthy_true in Hne. rewrite Hne. cbn [negb].
  destruct (jwt_verify token) as [sub |]; [| reflexivity].
  cbn. unfold reading. destruct (fault env _ (UsersGet sub)); cbn; [done |].
  destruct (db_get (users w) sub); reflexivity.
Qed.

(** C10, as the code has it: a credential that verifies but whose subject
    is no longer in the users database is answered 401 like every other
    refusal of the middleware, and told apart from a missing credential
    ("Authentication required") and from one that does not verify
    ("Invalid token") only by its message "User not found". *)
Theorem auth_subject_missing_is_401 env w authorization token sub :
  replace "Bearer " EmptyString <$> authorization = Some token →
  token ≠ EmptyString →
  jwt_verify token = Some sub →
  users w !! sub = None →
  run env w (auth jwt_verify authorization)
  = (Refused (mkResponse 401 (ErrorJson "User not found")), w)
  ∧ (∀ authorization',
       from_option truthy false (replace "Bearer " EmptyString <$> authorization')
       = false →
       run env w (auth jwt_verify authorization')
       = (Refused (mkResponse 401 (ErrorJson "Authentication required")), w))
  ∧ (∀ authorization' token',
       replace "Bearer " EmptyString <$> authorization' = Some token' →
       token' ≠ EmptyString →
       jwt_verify token' = None →
       run env w (auth jwt_verify authorization')
       = (Refused (mkResponse 401 (ErrorJson "Invalid token")), w)).
Proof.
  intros Ht Hne Hv Hu. split; [| split].
  - rewrite (auth_token _ _ _ _ Ht Hne), Hv. cbn. unfold reading.
    destruct (fault env _ (UsersGet sub)); cbn; [done |].
    rewrite (db_get_None _ _ Hu). reflexivity.
  - intros a' H. apply auth_no_token, H.
  - intros a' t' Ht' Hne' Hv'. rewrite (auth_token _ _ _ _ Ht' Hne'), Hv'.
    reflexivity.
Qed.

End AuthProperties.

Lemma auth_subject_missing_is_401_witness :
  run Sample.env1 Sample.world
    (auth Sample.jwt_verify (Some "Bearer jwt:u-carol"))
  = (Refused (mkResponse 401 (ErrorJson "User not found")), Sample.world).
Proof.
  apply (auth_subject_missing_is_401 Sample.jwt_verify Sample.env1
           Sample.world (Some "Bearer jwt:u-carol") "jwt:u-carol" "u-carol");
    [reflexivity | discriminate | reflexivity | reflexivity].
Defined.

(** C10, as stated, fails: for a verified credential whose subject is
    gone the middleware answers 401, not 404. *)
Lemma auth_subject_missing_not_404 :
  Sample.jwt_verify "jwt:u-carol" = Some "u-carol"
  ∧ users Sample.world !! "u-carol" = None
  ∧ ∃ res,
      (run Sample.env1 Sample.world
         (auth Sample.jwt_verify (Some "Bearer jwt:u-carol"))).1 = Refused res
      ∧ status res = 401 ∧ status res ≠ 404.
Proof.
  split; [reflexivity |]. split; [reflexivity |].
  eexists. split; [reflexivity |]. split; [reflexivity | discriminate].
Qed.

(** ** RSVP creation *)

Lemma reading_world {A} env w (op : Op (Result A)) r :
  (reading env w op r).2 = w.
Proof. unfold reading. destruct (fault env _ op); reflexivity. Qed.

(** A request run alone, call by call. *)
Lemma run_rsvp_create env w caller b :
  let eventId := trim (default EmptyString b) in
  run env w (rsvp_create caller b)
  = if negb (notEmpty eventId) then (mkResponse 400 ErrorsJson, w) else
    match (perform env w (EventsGet eventId)).1 with
    | Rejected _ => (mkResponse 404 (ErrorJson "Event not found"), w)
    | Resolved event =>
        match
          rsvp_checks caller event (perform env w (ParticipantsView eventId)).1
        with
        | Some res => (res, w)
        | None =>
            let p := new_participant eventId caller event (clock env) in
            match perform env w (ParticipantsInsert p) with
            | (Rejected e, w') =>
                (mkResponse 500 (ErrorJson "Server error creating RSVP"),
                 log "RSVP error:" e w')
            | (Resolved r, w') =>
                (mkResponse 201 (ParticipantJson "RSVP successful" (ir_id r) p),
                 w')
            end
        end
    end.
Proof.
  intros eventId. unfold rsvp_create. fold eventId.
  destruct (negb (notEmpty eventId)); [reflexivity |].
  cbn.
  pose proof (reading_world env w (EventsGet eventId)
                (db_get (events w) eventId)) as Hw.
  destruct (reading env w (EventsGet eventId) (db_get (events w) eventId))
    as [[event | e] w1]; cbn in Hw; subst w1; cbn; [| reflexivity].
  pose proof (reading_world env w (ParticipantsView eventId)
                (Resolved (view_by_event (participants w) eventId))) as Hw.
  destruct (reading env w (ParticipantsView eventId)
              (Resolved (view_by_event (participants w) eventId)))
    as [existing w1]; cbn in Hw; subst w1; cbn.
  destruct (rsvp_checks caller event existing) as [res |]; cbn; [reflexivity |].
  destruct (writing env w _ _ _) as [[r | e] w']; reflexivity.
Qed.

(** C9: when the by-event lookup of RSVP creation fails, its error is
    swallowed, neither the duplicate check nor the capacity check runs,
    the participant is inserted and 201 is answered, whoever has already
    RSVP'd and whatever the capacity; conversely a refusal "Already
    RSVP'd to this event" or "Event is full" (the only 400 answers with
    an [error] field) is given only when the lookup has succeeded. *)
Theorem rsvp_lookup_failure_skips_checks env w caller b :
  let eventId := trim (default EmptyString b) in
  (∀ rev ev e,
     let p := new_participant eventId caller (mkDoc eventId rev ev) (clock env) in
     notEmpty eventId = true →
     fault env _ (EventsGet eventId) = None →
     events w !! eventId = Some (rev, ev) →
     fault env _ (ParticipantsView eventId) = Some e →
     fault env _ (ParticipantsInsert p) = None →
     participants w !! uuid env = None →
     run env w (rsvp_create caller b)
     = (mkResponse 201 (ParticipantJson "RSVP successful" (uuid env) p),
        set_participants (<[uuid env := (1, p)]> (participants w)) w))
  ∧ (∀ msg,
       (run env w (rsvp_create caller b)).1 = mkResponse 400 (ErrorJson msg) →
       fault env _ (ParticipantsView eventId) = None).
Proof.
  intros eventId. split.
  - intros rev ev e p Hne Hget Hev Hview Hins Hfresh.
    rewrite run_rsvp_create. fold eventId. rewrite Hne. cbn [negb perform].
    rewrite (reading_ok _ _ _ _ Hget), (db_get_Some _ _ _ _ Hev).
    rewrite (reading_fault _ _ _ _ _ Hview). cbn [fst rsvp_checks].
    fold p. rewrite (writing_ok _ _ _ _ _ Hins). unfold db_post.
    rewrite Hfresh. reflexivity.
  - intros msg. rewrite run_rsvp_create. fold eventId.
    destruct (negb (notEmpty eventId)); [discriminate |].
    destruct (perform env w (EventsGet eventId)).1 as [event | e];
      [| discriminate].
    cbn [perform]. unfold reading at 1.
    destruct (fault env _ (ParticipantsView eventId)) as [e |];
      [| reflexivity].
    cbn [fst rsvp_checks].
    cbv zeta.
    destruct (writing env w _ _ _) as [[r | e'] w']; cbn; discriminate.
Qed.

Lemma rsvp_lookup_failure_skips_checks_witness :
  let p :=
    new_participant "e1" Sample.alice (mkDoc "e1" 1 Sample.standup)
      (clock Sample.env2_no_view) in
  run Sample.env2_no_view Sample.world_full
    (rsvp_create Sample.alice (Some " e1 "))
  = (mkResponse 201 (ParticipantJson "RSVP successful" "p2" p),
     set_participants (<["p2" := (1%nat, p)]> (participants Sample.world_full))
       Sample.world_full).
Proof.
  apply (proj1 (rsvp_lookup_failure_skips_checks Sample.env2_no_view
                  Sample.world_full Sample.alice (Some " e1 "))
           1%nat Sample.standup (HttpError 404));
    reflexivity.
Defined.

(** ** Views *)

Lemma docs_Permutation {A} (db : DB A) :
  docs db ≡ₚ (fun kv => mkDoc kv.1 kv.2.1 kv.2.2) <$> map_to_list db.
Proof. apply merge_sort_Permutation. Qed.

Lemma elem_of_docs {A} (db : DB A) (d : Doc A) :
  d ∈ docs db ↔ db !! _id d = Some (_rev d, body d).
Proof.
  rewrite docs_Permutation, list_elem_of_fmap. split.
  - intros [[k [r a]] [-> Hin]]. apply elem_of_map_to_list in Hin. exact Hin.
  - intros H. exists (_id d, (_rev d, body d)). split.
    + destruct d; reflexivity.
    + apply elem_of_map_to_list, H.
Qed.

Lemma elem_of_view_by_event db key d :
  d ∈ view_by_event db key
  ↔ db !! _id d = Some (_rev d, body d) ∧ by_event key d.
Proof.
  unfold view_by_event. rewrite list_elem_of_filter, elem_of_docs. tauto.
Qed.

Lemma NoDup_docs_ids {A} (db : DB A) : NoDup (_id <$> docs db).
Proof.
  rewrite docs_Permutation, <- list_fmap_compose.
  apply NoDup_fst_map_to_list.
Qed.

Lemma NoDup_view_ids db key : NoDup (_id <$> view_by_event db key).
Proof.
  apply (sublist_NoDup _ (_id <$> docs db)); [apply NoDup_docs_ids |].
  apply fmap_sublist, sublist_filter.
Qed.

Lemma find_none_elem_of {A} (f : A → bool) (l : list A) :
  (∀ x, x ∈ l → f x = false) → find f l = None.
Proof.
  induction l as [| a l IH]; intros H; cbn; [reflexivity |].
  rewrite (H a) by left. apply IH. intros x Hx. apply H. right. exact Hx.
Qed.

Lemma find_first {A} (f : A → bool) (pre post : list A) (d : A) :
  (∀ x, x ∈ pre → f x = false) → f d = true →
  find f (pre ++ d :: post)%list = Some d.
Proof.
  induction pre as [| a pre IH]; intros Hpre Hd; cbn.
  - rewrite Hd. reflexivity.
  - rewrite (Hpre a) by left. apply IH; [| exact Hd].
    intros x Hx. apply Hpre. right. exact Hx.
Qed.

(** ** RSVP cancellation *)

Lemma cancel_by_pair_forbidden env w caller e u :
  u ≠ _id caller →
  run env w (cancel_rsvp_by_pair caller e u)
  = (mkResponse 403 (ErrorJson "Not authorized to cancel this RSVP"), w).
Proof.
  intros Hne. unfold cancel_rsvp_by_pair.
  destruct (decide (u ≠ _id caller)); [reflexivity | contradiction].
Qed.

Lemma cancel_by_pair_no_match env w caller e :
  fault env _ (ParticipantsView e) = None →
  (∀ d, d ∈ view_by_event (participants w) e → userId (body d) ≠ _id caller) →
  run env w (cancel_rsvp_by_pair caller e (_id caller))
  = (mkResponse 404 (ErrorJson "RSVP not found"), w).
Proof.
  intros Hview Hnone. unfold cancel_rsvp_by_pair.
  destruct (decide (_id caller ≠ _id caller)); [contradiction |].
  cbn. rewrite (reading_ok _ _ _ _ Hview).
  rewrite find_none_elem_of; [reflexivity |].
  intros d Hd. apply String.eqb_neq, Hnone, Hd.
Qed.

(** C5, as the code has it.  By id: NotFound when no participant has the
    id, Forbidden when the participant belongs to another user.  By
    (eventId, userId): Forbidden whenever the userId of the path is not
    the caller, whether or not a participant matches the pair, and NotFound
    when the userId is the caller's and no participant of the event is
    theirs.  In each of these cases the databases are left as they
    were. *)
Theorem cancel_refusals env w caller :
  (∀ id,
     fault env _ (ParticipantsGet id) = None →
     participants w !! id = None →
     run env w (cancel_rsvp caller id)
     = (mkResponse 404 (ErrorJson "RSVP not found"), w))
  ∧ (∀ id rev p,
       fault env _ (ParticipantsGet id) = None →
       participants w !! id = Some (rev, p) →
       userId p ≠ _id caller →
       run env w (cancel_rsvp caller id)
       = (mkResponse 403 (ErrorJson "Not authorized to cancel this RSVP"), w))
  ∧ (∀ e u,
       u ≠ _id caller →
       run env w (cancel_rsvp_by_pair caller e u)
       = (mkResponse 403 (ErrorJson "Not authorized to cancel this RSVP"), w))
  ∧ (∀ e,
       fault env _ (ParticipantsView e) = None →
       (∀ d, d ∈ view_by_event (participants w) e →
             userId (body d) ≠ _id caller) →
       run env w (cancel_rsvp_by_pair caller e (_id caller))
       = (mkResponse 404 (ErrorJson "RSVP not found"), w)).
Proof.
  repeat split.
  - intros id Hget Hnone. unfold cancel_rsvp. cbn.
    rewrite (reading_ok _ _ _ _ Hget), (db_get_None _ _ Hnone). reflexivity.
  - intros id rev p Hget Hsome Hne. unfold cancel_rsvp. cbn.
    rewrite (reading_ok _ _ _ _ Hget), (db_get_Some _ _ _ _ Hsome). cbn.
    destruct (decide (userId p ≠ _id caller)); [reflexivity | contradiction].
  - intros e u. apply cancel_by_pair_forbidden.
  - intros e. apply cancel_by_pair_no_match.
Qed.

(** C8, as the code has it: after the caller check, cancellation by pair
    looks the event's participants up and takes the first row whose
    userId is the caller's.  No such row: NotFound, nothing deleted.
    Otherwise that first row, a participant of the event and of the user,
    is deleted and success answered; when further rows match as well they
    stay, and nothing is written to the console. *)
Theorem cancel_by_pair_first_match env w caller e :
  fault env _ (ParticipantsView e) = None →
  ((∀ d, d ∈ view_by_event (participants w) e →
         userId (body d) ≠ _id caller) →
   run env w (cancel_rsvp_by_pair caller e (_id caller))
   = (mkResponse 404 (ErrorJson "RSVP not found"), w))
  ∧ (∀ pre d post,
       view_by_event (participants w) e = (pre ++ d :: post)%list →
       (∀ x, x ∈ pre → userId (body x) ≠ _id caller) →
       userId (body d) = _id caller →
       fault env _ (ParticipantsDestroy (_id d) (_rev d)) = None →
       let w' := (run env w (cancel_rsvp_by_pair caller e (_id caller))).2 in
       eventId (body d) = e
       ∧ run env w (cancel_rsvp_by_pair caller e (_id caller))
         = (mkResponse 200 (MessageJson "RSVP cancelled successfully"),
            set_participants (delete (_id d) (participants w)) w)
       ∧ participants w' !! _id d = None
       ∧ (∀ x, x ∈ post →
            participants w' !! _id x = Some (_rev x, body x))
       ∧ console w' = console w).
Proof.
  intros Hview. split; [apply cancel_by_pair_no_match, Hview |].
  intros pre d post Hrows Hpre Hd Hdestroy w'. subst w'.
  assert (d ∈ view_by_event (participants w) e) as Hin.
  { rewrite Hrows. apply elem_of_app. right. left. }
  apply elem_of_view_by_event in Hin as [Hlookup [_ Hkey]].
  assert (run env w (cancel_rsvp_by_pair caller e (_id caller))
          = (mkResponse 200 (MessageJson "RSVP cancelled successfully"),
             set_participants (delete (_id d) (participants w)) w)) as Hrun.
  { unfold cancel_rsvp_by_pair.
    destruct (decide (_id caller ≠ _id caller)); [contradiction |].
    cbn. rewrite (reading_ok _ _ _ _ Hview), Hrows.
    rewrite (find_first _ pre post d).
    - cbn. rewrite (writing_ok _ _ _ _ _ Hdestroy). unfold db_destroy.
      rewrite Hlookup. destruct (decide (_rev d = _rev d)); [| contradiction].
      reflexivity.
    - intros x Hx. apply String.eqb_neq, Hpre, Hx.
    - apply String.eqb_eq, Hd. }
  split; [exact Hkey |]. split; [exact Hrun |]. rewrite Hrun. cbn.
  split; [apply lookup_delete_eq |]. split; [| reflexivity].
  intros x Hx.
  assert (x ∈ view_by_event (participants w) e) as Hxin.
  { rewrite Hrows. apply elem_of_app. right. right. exact Hx. }
  apply elem_of_view_by_event in Hxin as [Hxlookup _].
  rewrite lookup_delete_ne; [exact Hxlookup |].
  pose proof (NoDup_view_ids (participants w) e) as Hdup.
  rewrite Hrows, fmap_app, fmap_cons in Hdup.
  apply NoDup_app in Hdup as (_ & _ & Hdup).
  apply NoDup_cons in Hdup as [Hnotin _].
  intros Heq. apply Hnotin. rewrite Heq. apply list_elem_of_fmap_2, Hx.
Qed.

Lemma cancel_refusals_witness :
  run Sample.env1 Sample.world_rsvps (cancel_rsvp Sample.alice "p7")
  = (mkResponse 404 (ErrorJson "RSVP not found"), Sample.world_rsvps)
  ∧ run Sample.env1 Sample.world_rsvps (cancel_rsvp Sample.alice "p2")
    = (mkResponse 403 (ErrorJson "Not authorized to cancel this RSVP"),
       Sample.world_rsvps)
  ∧ run Sample.env1 Sample.world_rsvps
      (cancel_rsvp_by_pair Sample.alice "e2" "u-bob")
    = (mkResponse 403 (ErrorJson "Not authorized to cancel this RSVP"),
       Sample.world_rsvps)
  ∧ run Sample.env1 Sample.world
      (cancel_rsvp_by_pair Sample.alice "e2" "u-alice")
    = (mkResponse 404 (ErrorJson "RSVP not found"), Sample.world).
Proof.
  destruct (cancel_refusals Sample.env1 Sample.world_rsvps Sample.alice)
    as (Hmissing & Hother & Hpair & _).
  destruct (cancel_refusals Sample.env1 Sample.world Sample.alice)
    as (_ & _ & _ & Hnone).
  split; [apply Hmissing; reflexivity |].
  split.
  { apply (Hother "p2" 1%nat (Sample.rsvp Sample.bob "e2" Sample.meetup).2);
      [reflexivity | reflexivity | discriminate]. }
  split; [apply Hpair; discriminate |].
  apply (Hnone "e2"); [reflexivity |].
  intros d Hd. vm_compute in Hd. inversion Hd.
Defined.

(** C5, as stated, fails for the cancellation by pair: asked to cancel an
    RSVP of another user that does not exist, the route answers 403, not
    404. *)
Lemma cancel_by_pair_missing_is_forbidden :
  view_by_event (participants Sample.world) "e1" = []
  ∧ let done :=
      run Sample.env1 Sample.world
        (cancel_rsvp_by_pair Sample.alice "e1" "u-bob") in
    status done.1 = 403 ∧ status done.1 ≠ 404.
Proof.
  split; [vm_compute; reflexivity |]. cbv zeta.
  split; [vm_compute; reflexivity | vm_compute; discriminate].
Qed.

Lemma cancel_by_pair_first_match_witness :
  run Sample.env1 Sample.world_rsvps
    (cancel_rsvp_by_pair Sample.alice "e2" "u-alice")
  = (mkResponse 200 (MessageJson "RSVP cancelled successfully"),
     set_participants (delete "p1" (participants Sample.world_rsvps))
       Sample.world_rsvps)
  ∧ run Sample.env1 Sample.world
      (cancel_rsvp_by_pair Sample.alice "e2" "u-alice")
    = (mkResponse 404 (ErrorJson "RSVP not found"), Sample.world).
Proof.
  split.
  - destruct (cancel_by_pair_first_match Sample.env1 Sample.world_rsvps
                Sample.alice "e2" eq_refl) as [_ Hfirst].
    destruct (Hfirst []
                (mkDoc "p1" 1 (Sample.rsvp Sample.alice "e2" Sample.meetup).2)
                [mkDoc "p2" 1 (Sample.rsvp Sample.bob "e2" Sample.meetup).2])
      as (_ & Hrun & _);
      [vm_compute; reflexivity | intros x Hx; inversion Hx | reflexivity
      | reflexivity |].
    exact Hrun.
  - destruct (cancel_by_pair_first_match Sample.env1 Sample.world
                Sample.alice "e2" eq_refl) as [Hnone _].
    apply Hnone. intros d Hd. vm_compute in Hd. inversion Hd.
Defined.

(** C8, as stated, fails in what is logged.  Two participants match the
    pair; the route deletes the first, answers success, leaves the second
    in place and writes nothing to the console. *)
Lemma cancel_by_pair_logs_nothing :
  let done :=
    run Sample.env1 Sample.world_twice
      (cancel_rsvp_by_pair Sample.alice "e2" "u-alice") in
  _id <$> filter (fun d => userId (body d) = "u-alice")
            (view_by_event (participants Sample.world_twice) "e2")
  = ["p1"; "p2"]
  ∧ status done.1 = 200
  ∧ participants done.2 !! "p1" = None
  ∧ is_Some (participants done.2 !! "p2")
  ∧ console Sample.world_twice = []
  ∧ console done.2 = [].
Proof.
  cbv zeta. split; [vm_compute; reflexivity |].
  split; [vm_compute; reflexivity |]. split; [vm_compute; reflexivity |].
  split; [vm_compute; eexists; reflexivity |].
  split; vm_compute; reflexivity.
Qed.

(** ** Event update and deletion: who may *)

Section EventProperties.

Variable isISO8601 : string → bool.

(** validator.js accepts no empty date. *)
Hypothesis isISO8601_empty : isISO8601 EmptyString = false.

Lemma update_event_success env w caller id b :
  status (run env w (update_event isISO8601 caller id b)).1 = 200 →
  ∃ rev ev, events w !! id = Some (rev, ev) ∧ creatorId ev = _id caller.
Proof.
  unfold update_event.
  destruct (negb (update_valid isISO8601 (sanitized b))); [discriminate |].
  cbn. unfold reading, db_get.
  destruct (fault env _ (EventsGet id)) as [e |].
  - unfold update_catch. destruct (decide (statusCode e = Some 404));
      cbn; discriminate.
  - destruct (events w !! id) as [[rev ev] |] eqn:Hev; cbn.
    + destruct (decide (creatorId ev ≠ _id caller)) as [| Heq];
        [cbn; discriminate |].
      intros _. exists rev, ev. split; [reflexivity |].
      destruct (decide (creatorId ev = _id caller)); [done | contradiction].
    + discriminate.
Qed.

Lemma delete_event_success env w caller id :
  status (run env w (delete_event caller id)).1 = 200 →
  ∃ rev ev, events w !! id = Some (rev, ev) ∧ creatorId ev = _id caller.
Proof.
  unfold delete_event. cbn. unfold reading, db_get.
  destruct (fault env _ (EventsGet id)) as [e |].
  - unfold delete_catch. destruct (decide (statusCode e = Some 404));
      cbn; discriminate.
  - destruct (events w !! id) as [[rev ev] |] eqn:Hev; cbn.
    + destruct (decide (creatorId ev ≠ _id caller)) as [| Heq];
        [cbn; discriminate |].
      intros _. exists rev, ev. split; [reflexivity |].
      destruct (decide (creatorId ev = _id caller)); [done | contradiction].
    + discriminate.
Qed.

(** C6, as the code has it: an update or a deletion of an event answers
    success only to the event's creator.  An update whose body fails
    validation is answered 400 before the event is looked up, whoever the
    caller is.  For a caller who is not the creator of the stored event,
    users, events and participants stay as they were, whatever the body
    and whatever the store answers; when the lookup of the event is
    answered, the deletion and every update whose body passes validation
    are refused with 403 and nothing is logged. *)
Theorem event_mutation_creator_only env w caller id :
  (∀ b,
     status (run env w (update_event isISO8601 caller id b)).1 = 200 →
     ∃ rev ev, events w !! id = Some (rev, ev) ∧ creatorId ev = _id caller)
  ∧ (status (run env w (delete_event caller id)).1 = 200 →
     ∃ rev ev, events w !! id = Some (rev, ev) ∧ creatorId ev = _id caller)
  ∧ (∀ b,
       update_valid isISO8601 (sanitized b) = false →
       run env w (update_event isISO8601 caller id b)
       = (mkResponse 400 ErrorsJson, w))
  ∧ (∀ rev ev,
       events w !! id = Some (rev, ev) →
       creatorId ev ≠ _id caller →
       (∀ b,
          let w' := (run env w (update_event isISO8601 caller id b)).2 in
          users w' = users w ∧ events w' = events w
          ∧ participants w' = participants w)
       ∧ (let w' := (run env w (delete_event caller id)).2 in
          users w' = users w ∧ events w' = events w
          ∧ participants w' = participants w)
       ∧ (fault env _ (EventsGet id) = None →
          (∀ b,
             update_valid isISO8601 (sanitized b) = true →
             run env w (update_event isISO8601 caller id b)
             = (mkResponse 403
                  (ErrorJson "Not authorized to update this event"), w))
          ∧ run env w (delete_event caller id)
            = (mkResponse 403
                 (ErrorJson "Not authorized to delete this event"), w))).
Proof.
  split; [intros b; apply update_event_success |].
  split; [apply delete_event_success |].
  split.
  { intros b Hvalid. unfold update_event. rewrite Hvalid. reflexivity. }
  intros rev ev Hev Hne.
  assert (∀ b,
            fault env _ (EventsGet id) = None →
            update_valid isISO8601 (sanitized b) = true →
            run env w (update_event isISO8601 caller id b)
            = (mkResponse 403
                 (ErrorJson "Not authorized to update this event"), w))
    as Hupdate.
  { intros b Hget Hvalid. unfold update_event. rewrite Hvalid. cbn.
    rewrite (reading_ok _ _ _ _ Hget), (db_get_Some _ _ _ _ Hev). cbn.
    destruct (decide (creatorId ev ≠ _id caller)); [reflexivity | contradiction]. }
  assert (fault env _ (EventsGet id) = None →
          run env w (delete_event caller id)
          = (mkResponse 403
               (ErrorJson "Not authorized to delete this event"), w))
    as Hdelete.
  { intros Hget. unfold delete_event. cbn.
    rewrite (reading_ok _ _ _ _ Hget), (db_get_Some _ _ _ _ Hev). cbn.
    destruct (decide (creatorId ev ≠ _id caller)); [reflexivity | contradiction]. }
  split; [| split].
  - intros b. cbv zeta.
    destruct (update_valid isISO8601 (sanitized b)) eqn:Hvalid.
    + destruct (fault env _ (EventsGet id)) as [e |] eqn:Hget.
      * unfold update_event. rewrite Hvalid. cbn.
        rewrite (reading_fault _ _ _ _ _ Hget). cbn. unfold update_catch.
        destruct (decide (statusCode e = Some 404)); cbn; auto.
      * rewrite (Hupdate b eq_refl Hvalid). auto.
    + unfold update_event. rewrite Hvalid. cbn. auto.
  - cbv zeta. destruct (fault env _ (EventsGet id)) as [e |] eqn:Hget.
    + unfold delete_event. cbn. rewrite (reading_fault _ _ _ _ _ Hget). cbn.
      unfold delete_catch.
      destruct (decide (statusCode e = Some 404)); cbn; auto.
    + rewrite (Hdelete eq_refl). auto.
  - intros Hget. split; [intros b; apply Hupdate, Hget | apply Hdelete, Hget].
Qed.

(** ** Event update: which fields change *)

Lemma assign_notEmpty field old :
  optional notEmpty field = true → assign field old = default old field.
Proof.
  destruct field as [s |]; cbn; [| reflexivity].
  unfold notEmpty. intros ->. reflexivity.
Qed.

Lemma assign_isISO8601 field old :
  optional isISO8601 field = true → assign field old = default old field.
Proof.
  destruct field as [s |]; cbn; [| reflexivity].
  intros Hs. destruct (truthy s) eqn:Ht; [reflexivity |].
  exfalso. destruct (decide (s = EmptyString)) as [-> | Hne]; [congruence |].
  apply truthy_true in Hne. congruence.
Qed.

(** C7: an update by the creator that passes validation overwrites
    exactly the fields the request supplies (the text fields as
    sanitized), keeps every field it leaves out together with the
    creator fields and createdAt, and sets updatedAt to the current time;
    users, participants and the other events are not written.  In
    particular, when only the title is supplied the capacity and every
    participant document are as before. *)
Theorem update_event_overwrites_supplied env w caller id rev ev b :
  update_valid isISO8601 (sanitized b) = true →
  (∀ X (op : Op X), fault env X op = None) →
  events w !! id = Some (rev, ev) →
  creatorId ev = _id caller →
  let ev' :=
    {| title := default (title ev) (trim <$> Body.title b);
       description := default (description ev) (trim <$> Body.description b);
       date := default (date ev) (Body.date b);
       location := default (location ev) (trim <$> Body.location b);
       maxParticipants :=
         match Body.maxParticipants b with
         | Some n => Some n
         | None => maxParticipants ev
         end;
       creatorId := creatorId ev;
       creatorName := creatorName ev;
       createdAt := createdAt ev;
       updatedAt := clock env |} in
  let w' := (run env w (update_event isISO8601 caller id b)).2 in
  run env w (update_event isISO8601 caller id b)
  = (mkResponse 200
       (EventJson "Event updated successfully" id (mkDoc id rev ev')),
     set_events (<[id := (S rev, ev')]> (events w)) w)
  ∧ participants w' = participants w
  ∧ (∀ id', id' ≠ id → events w' !! id' = events w !! id')
  ∧ (Body.maxParticipants b = None →
     ∃ ev'', events w' !! id = Some (S rev, ev'')
             ∧ maxParticipants ev'' = maxParticipants ev).
Proof.
  intros Hvalid Hfault Hev Hcreator ev' w'.
  assert (run env w (update_event isISO8601 caller id b)
          = (mkResponse 200
               (EventJson "Event updated successfully" id (mkDoc id rev ev')),
             set_events (<[id := (S rev, ev')]> (events w)) w)) as Hrun.
  { unfold update_event. rewrite Hvalid. cbn.
    rewrite (reading_ok _ _ _ _ (Hfault _ _)), (db_get_Some _ _ _ _ Hev).
    cbn. destruct (decide (creatorId ev ≠ _id caller)); [contradiction |].
    cbn. rewrite (writing_ok _ _ _ _ _ (Hfault _ _)). unfold db_put. cbn.
    rewrite Hev. destruct (decide (rev = rev)); [| contradiction]. cbn.
    unfold update_valid in Hvalid.
    repeat (apply andb_prop in Hvalid as [Hvalid ?]).
    assert (update_fields (sanitized b) (clock env) ev = ev') as ->;
      [| reflexivity].
    unfold update_fields, ev'. cbn.
    rewrite (assign_notEmpty _ (title ev)), (assign_notEmpty _ (description ev)),
      (assign_notEmpty _ (location ev)), assign_isISO8601 by assumption.
    reflexivity. }
  subst w'. rewrite Hrun. cbn. split; [reflexivity |].
  split; [reflexivity |]. split.
  - intros id' Hne. apply lookup_insert_ne. congruence.
  - intros Hnone. exists ev'. rewrite lookup_insert_eq.
    split; [reflexivity |]. unfold ev'. cbn. rewrite Hnone. reflexivity.
Qed.

End EventProperties.

Lemma event_mutation_creator_only_witness :
  run Sample.env1 Sample.world_rsvps
    (update_event Sample.isISO8601 Sample.alice "e2"
       (Body.mk (Some "Party") None None None None))
  = (mkResponse 403 (ErrorJson "Not authorized to update this event"),
     Sample.world_rsvps)
  ∧ run Sample.env1 Sample.world_rsvps (delete_event Sample.alice "e2")
    = (mkResponse 403 (ErrorJson "Not authorized to delete this event"),
       Sample.world_rsvps).
Proof.
  destruct (event_mutation_creator_only Sample.isISO8601 Sample.env1
              Sample.world_rsvps Sample.alice "e2") as (_ & _ & _ & Hother).
  destruct (Hother 1%nat Sample.meetup) as (_ & _ & Hrefused);
    [reflexivity | discriminate |].
  destruct (Hrefused eq_refl) as [Hupdate Hdelete].
  split; [| exact Hdelete].
  apply (Hupdate (Body.mk (Some "Party") None None None None)). reflexivity.
Defined.

(** C6, as stated, fails for an update whose body does not pass
    validation: the validation result is read before the event is looked
    up, so a caller who is not the creator of the event is answered 400,
    not 403. *)
Lemma update_by_other_invalid_body :
  events Sample.world_rsvps !! "e2" = Some (1%nat, Sample.meetup)
  ∧ creatorId Sample.meetup ≠ _id Sample.alice
  ∧ run Sample.env1 Sample.world_rsvps
      (update_event Sample.isISO8601 Sample.alice "e2"
         (Body.mk (Some "  ") None None None None))
    = (mkResponse 400 ErrorsJson, Sample.world_rsvps).
Proof.
  split; [reflexivity |]. split; [discriminate |]. reflexivity.
Qed.

Lemma update_event_overwrites_supplied_witness :
  let done :=
    run Sample.env1 Sample.world_rsvps
      (update_event Sample.isISO8601 Sample.bob "e2"
         (Body.mk (Some " Winter meetup ") None None None None)) in
  status done.1 = 200
  ∧ (∃ ev, events done.2 !! "e2" = Some (2%nat, ev)
           ∧ title ev = "Winter meetup"
           ∧ description ev = description Sample.meetup
           ∧ maxParticipants ev = maxParticipants Sample.meetup
           ∧ updatedAt ev = clock Sample.env1)
  ∧ participants done.2 = participants Sample.world_rsvps.
Proof.
  destruct (update_event_overwrites_supplied Sample.isISO8601 eq_refl
              Sample.env1 Sample.world_rsvps Sample.bob "e2" 1%nat
              Sample.meetup
              (Body.mk (Some " Winter meetup ") None None None None))
    as (Hrun & Hparts & _);
    [reflexivity | intros X op; reflexivity | reflexivity | reflexivity |].
  cbv zeta. rewrite Hparts. rewrite Hrun. cbn [fst snd status].
  split; [reflexivity |]. split; [| reflexivity].
  eexists. split; [apply lookup_insert_eq |]. repeat split.
Defined.

(** ** Views after a write *)

Lemma docs_insert {A} (db : DB A) k r (a : A) :
  db !! k = None → docs (<[k := (r, a)]> db) ≡ₚ mkDoc k r a :: docs db.
Proof.
  intros Hk. rewrite !docs_Permutation, (map_to_list_insert _ _ _ Hk).
  reflexivity.
Qed.

Lemma view_by_event_insert db k r p key :
  db !! k = None →
  view_by_event (<[k := (r, p)]> db) key
  ≡ₚ filter (by_event key) (mkDoc k r p :: docs db).
Proof.
  intros Hk. unfold view_by_event. rewrite (docs_insert _ _ _ _ Hk).
  reflexivity.
Qed.

Lemma view_by_event_insert_length db k r p key :
  db !! k = None →
  length (view_by_event (<[k := (r, p)]> db) key)
  = if decide (by_event key (mkDoc k r p))
    then S (length (view_by_event db key))
    else length (view_by_event db key).
Proof.
  intros Hk. rewrite (view_by_event_insert _ _ _ _ _ Hk), filter_cons.
  destruct (decide (by_event key (mkDoc k r p))); reflexivity.
Qed.

Lemma existsb_false_elem_of {A} (f : A → bool) (l : list A) :
  existsb f l = false → ∀ x, x ∈ l → f x = false.
Proof.
  induction l as [| a l IH]; cbn; intros H x Hx.
  - inversion Hx.
  - apply orb_false_elim in H as [Ha Hl].
    apply elem_of_cons in Hx as [-> | Hx]; [exact Ha | apply IH; assumption].
Qed.

Lemma existsb_true_elem_of {A} (f : A → bool) (l : list A) x :
  x ∈ l → f x = true → existsb f l = true.
Proof.
  induction l as [| a l IH]; cbn; intros Hx Hf.
  - inversion Hx.
  - apply elem_of_cons in Hx as [<- | Hx]; [rewrite Hf; reflexivity |].
    rewrite (IH Hx Hf). apply orb_true_r.
Qed.

(** ** What an RSVP creation run alone does to the databases *)

Lemma rsvp_create_effect env w caller b :
  let eventId := trim (default EmptyString b) in
  let w' := (run env w (rsvp_create caller b)).2 in
  users w' = users w ∧ events w' = events w
  ∧ (participants w' = participants w
     ∨ ∃ rev ev,
         notEmpty eventId = true
         ∧ events w !! eventId = Some (rev, ev)
         ∧ rsvp_checks caller (mkDoc eventId rev ev)
             (perform env w (ParticipantsView eventId)).1 = None
         ∧ participants w !! uuid env = None
         ∧ participants w'
           = <[uuid env := (1, new_participant eventId caller
                                 (mkDoc eventId rev ev) (clock env))]>
               (participants w)).
Proof.
  intros eventId w'. subst w'. rewrite run_rsvp_create. fold eventId.
  destruct (notEmpty eventId) eqn:Hne; cbn [negb]; [| cbn; auto].
  destruct (perform env w (EventsGet eventId)).1 as [event | e] eqn:Hget;
    [| cbn; auto].
  assert (∃ rev ev, events w !! eventId = Some (rev, ev)
                    ∧ event = mkDoc eventId rev ev) as (rev & ev & Hev & ->).
  { cbn [perform] in Hget. unfold reading, db_get in Hget.
    destruct (fault env _ (EventsGet eventId)); [discriminate |].
    destruct (events w !! eventId) as [[rev ev] |]; [| discriminate].
    cbn in Hget. exists rev, ev. split; [reflexivity | congruence]. }
  destruct (rsvp_checks _ _ _) as [res |] eqn:Hchecks; [cbn; auto |].
  cbv zeta. cbn [perform]. unfold writing, db_post.
  destruct (fault env _ (ParticipantsInsert _)); [cbn; auto |].
  destruct (participants w !! uuid env) eqn:Hfresh; cbn; [auto |].
  split; [reflexivity |]. split; [reflexivity |]. right.
  exists rev, ev. auto.
Qed.

Lemma rsvp_checks_passed caller event rows :
  rsvp_checks caller event (Resolved rows) = None →
  (∀ d, d ∈ rows → userId (body d) ≠ _id caller)
  ∧ full (body event) rows = false.
Proof.
  unfold rsvp_checks.
  destruct (existsb _ rows) eqn:Hdup; [discriminate |].
  destruct (full (body event) rows); [discriminate |].
  intros _. split; [| reflexivity].
  intros d Hd. apply String.eqb_neq.
  exact (existsb_false_elem_of _ _ Hdup d Hd).
Qed.

Lemma by_event_new_participant key k r e caller event now :
  notEmpty e = true →
  by_event key (mkDoc k r (new_participant e caller event now)) ↔ e = key.
Proof.
  intros Hne. unfold by_event. cbn. unfold notEmpty in Hne. tauto.
Qed.

Lemma rsvp_create_within_capacity env w caller b :
  fault env _ (ParticipantsView (trim (default EmptyString b))) = None →
  within_capacity w →
  within_capacity (run env w (rsvp_create caller b)).2.
Proof.
  intros Hview Hcap.
  destruct (rsvp_create_effect env w caller b)
    as (_ & Hevents & [Hsame | (rev & ev & Hne & Hev & Hchecks & Hfresh & Hins)]);
    intros id rev' ev' c; rewrite Hevents.
  - rewrite Hsame. apply Hcap.
  - intros Hev' Hmax Hc. rewrite Hins, (view_by_event_insert_length _ _ _ _ _ Hfresh).
    destruct (decide (by_event id _)) as [Hby | _]; [| by eapply Hcap].
    apply (by_event_new_participant _ _ _ _ _ _ _ Hne) in Hby. subst id.
    rewrite Hev in Hev'. injection Hev' as <- <-.
    cbn [perform] in Hchecks. rewrite (reading_ok _ _ _ _ Hview) in Hchecks.
    apply rsvp_checks_passed in Hchecks as [_ Hfull].
    unfold full in Hfull. cbn in Hfull. rewrite Hmax in Hfull.
    apply andb_false_iff in Hfull as [Hz | Hlt].
    + apply negb_false_iff, Z.eqb_eq in Hz. contradiction.
    + apply Z.leb_gt in Hlt. lia.
Qed.

(** ** Programs that never insert a participant *)

Lemma never_inserts_bind {A B} (p : Prog A) (f : A → Prog B) :
  never_inserts p → (∀ a, never_inserts (f a)) → never_inserts (p ≫= f).
Proof.
  intros Hp Hf. induction p as [a | X op k IH]; cbn; [apply Hf |].
  destruct Hp as [Hop Hk]. split; [exact Hop |].
  intros x. apply IH, Hk.
Qed.

Lemma db_destroy_subseteq {A} (db : DB A) id rev :
  (db_destroy db id rev).2 ⊆ db.
Proof.
  unfold db_destroy. destruct (db !! id) as [[r a] |]; [| reflexivity].
  destruct (decide (r = rev)); [apply delete_subseteq | reflexivity].
Qed.

Lemma perform_participants_subseteq env w {X} (op : Op X) :
  inserts_participant op = false →
  participants (perform env w op).2 ⊆ participants w.
Proof.
  destruct op; cbn; intros Hop; try discriminate;
    unfold reading, writing; try (destruct (fault env _ _)); cbn;
    try reflexivity.
  apply db_destroy_subseteq.
Qed.

Lemma run_never_inserts {A} env w (p : Prog A) :
  never_inserts p → participants (run env w p).2 ⊆ participants w.
Proof.
  revert w. induction p as [a | X op k IH]; intros w Hp; cbn; [reflexivity |].
  destruct Hp as [Hop Hk].
  pose proof (perform_participants_subseteq env w op Hop) as Hsub.
  destruct (perform env w op) as [x w1]. cbn in Hsub.
  etransitivity; [apply IH, Hk | exact Hsub].
Qed.

Lemma never_inserts_destroy_all rows : never_inserts (destroy_all rows).
Proof.
  induction rows as [| row rows IH]; cbn; [exact I |].
  split; [reflexivity |]. intros r.
  apply (never_inserts_bind (destroy_all rows)); [exact IH |].
  intros rs. exact I.
Qed.

Ltac never_inserts_step :=
  match goal with
  | |- never_inserts (if ?c then _ else _) => destruct c
  | |- never_inserts (match ?x with _ => _ end) => destruct x
  | |- never_inserts (_ ≫= _) => apply never_inserts_bind
  | |- never_inserts (destroy_all _) => apply never_inserts_destroy_all
  | |- never_inserts _ => cbn; first [exact I | split; [reflexivity | intros ?]]
  | |- True => exact I
  | |- _ ∧ _ => split; [reflexivity | intros ?]
  | |- ∀ _, _ => intros ?
  end.

Lemma never_inserts_route isISO8601 r :
  ¬ is_rsvp r →
  never_inserts (route isISO8601 r).
Proof.
  destruct r; intros Hr; [exfalso; apply Hr; exact I | | | |]; unfold route.
  - unfold cancel_rsvp, cancel_catch, send. repeat never_inserts_step.
  - unfold cancel_rsvp_by_pair, cancel_pair_catch, send.
    repeat never_inserts_step.
  - unfold update_event, update_catch, send. repeat never_inserts_step.
  - unfold delete_event, delete_participants, delete_catch, send.
    repeat never_inserts_step.
Qed.

(** ** RSVP creation: capacity *)

Lemma serve_cons isISO8601 env r reqs w :
  serve isISO8601 ((env, r) :: reqs) w
  = serve isISO8601 reqs (run env w (route isISO8601 r)).2.
Proof. reflexivity. Qed.

(** C1, as the code has it: an RSVP creation run alone whose by-event
    lookup is answered and finds the participant count not below the
    event's capacity answers 400 and inserts nothing: "Event is full", or
    "Already RSVP'd to this event" when the caller is among the
    participants; so after RSVP creations served one after the other, each
    with its lookup answered, no event has more participants than its
    capacity, if none had before. *)
Theorem rsvp_capacity_run_alone isISO8601 :
  (∀ env w caller b rev ev c,
     let eventId := trim (default EmptyString b) in
     let rows := view_by_event (participants w) eventId in
     notEmpty eventId = true →
     fault env _ (EventsGet eventId) = None →
     events w !! eventId = Some (rev, ev) →
     fault env _ (ParticipantsView eventId) = None →
     maxParticipants ev = Some c → c ≠ 0%Z →
     (c ≤ Z.of_nat (length rows))%Z →
     run env w (rsvp_create caller b)
     = (mkResponse 400
          (ErrorJson
             (if existsb (fun row => String.eqb (userId (body row)) (_id caller))
                   rows
              then "Already RSVP'd to this event"
              else "Event is full")), w))
  ∧ (∀ reqs w,
       Forall (fun er => is_rsvp er.2) reqs →
       Forall lookup_answered reqs →
       within_capacity w →
       within_capacity (serve isISO8601 reqs w)).
Proof.
  split.
  - intros env w caller b rev ev c eventId rows Hne Hget Hev Hview Hmax Hc Hfull.
    rewrite run_rsvp_create. fold eventId. rewrite Hne. cbn [negb perform].
    rewrite (reading_ok _ _ _ _ Hget), (db_get_Some _ _ _ _ Hev).
    rewrite (reading_ok _ _ _ _ Hview). cbn [fst rsvp_checks]. fold rows.
    destruct (existsb _ rows); [reflexivity |].
    unfold full. cbn [body]. rewrite Hmax.
    apply Z.eqb_neq in Hc. apply Z.leb_le in Hfull. rewrite Hc, Hfull.
    reflexivity.
  - intros reqs. induction reqs as [| [env r] reqs IH]; intros w Hrsvp Hlook Hcap;
      [exact Hcap |].
    rewrite serve_cons. inversion Hrsvp as [| ? ? Hr Hrsvp']; subst.
    inversion Hlook as [| ? ? Hl Hlook']; subst.
    apply IH; [exact Hrsvp' | exact Hlook' |].
    destruct r; cbn in Hr; try contradiction.
    apply rsvp_create_within_capacity; [exact Hl | exact Hcap].
Qed.

(** ** RSVP creation: one per event and user *)

Lemma rsvp_create_one_per_pair env w caller b :
  fault env _ (ParticipantsView (trim (default EmptyString b))) = None →
  one_rsvp_per_pair w →
  one_rsvp_per_pair (run env w (rsvp_create caller b)).2.
Proof.
  intros Hview Hone.
  destruct (rsvp_create_effect env w caller b)
    as (_ & _ & [Hsame | (rev & ev & Hne & Hev & Hchecks & Hfresh & Hins)]).
  { unfold one_rsvp_per_pair. rewrite Hsame. exact Hone. }
  cbn [perform] in Hchecks. rewrite (reading_ok _ _ _ _ Hview) in Hchecks.
  apply rsvp_checks_passed in Hchecks as [Hnew _].
  assert (∀ k r p, participants w !! k = Some (r, p) →
                   eventId p = trim (default EmptyString b) → userId p ≠ _id caller)
    as Hold.
  { intros k r p Hk He. apply (Hnew (mkDoc k r p)).
    apply elem_of_view_by_event. split; [exact Hk |].
    split; [| exact He]. cbn. rewrite He. exact Hne. }
  intros k1 k2 r1 r2 p1 p2. rewrite Hins.
  destruct (decide (uuid env = k1)) as [<- | Hk1];
    destruct (decide (uuid env = k2)) as [<- | Hk2]; [reflexivity | | |].
  - rewrite lookup_insert_eq, lookup_insert_ne by exact Hk2.
    intros [= <- <-] H2 He Hu. exfalso.
    eapply Hold; [exact H2 | symmetry; exact He | symmetry; exact Hu].
  - rewrite lookup_insert_eq, lookup_insert_ne by exact Hk1.
    intros H1 [= <- <-] He Hu. exfalso.
    eapply Hold; [exact H1 | exact He | exact Hu].
  - rewrite !lookup_insert_ne by assumption. apply Hone.
Qed.

Lemma one_rsvp_per_pair_subseteq w w' :
  participants w' ⊆ participants w →
  one_rsvp_per_pair w → one_rsvp_per_pair w'.
Proof.
  intros Hsub Hone k1 k2 r1 r2 p1 p2 H1 H2.
  eapply Hone; eapply lookup_weaken; eassumption.
Qed.

(** C2, as the code has it: an RSVP creation run alone whose by-event
    lookup is answered, by a user who holds a participant for the event,
    answers 400 "Already RSVP'd to this event" and inserts nothing; so when
    requests to the mutating routes are served one after the other and
    every lookup of an RSVP creation is answered, no two participants
    share event and user, if none did before. *)
Theorem rsvp_unique_run_alone isISO8601 :
  (∀ env w caller b k r p,
     let requested := trim (default EmptyString b) in
     notEmpty requested = true →
     fault env _ (EventsGet requested) = None →
     is_Some (events w !! requested) →
     fault env _ (ParticipantsView requested) = None →
     participants w !! k = Some (r, p) →
     eventId p = requested → userId p = _id caller →
     run env w (rsvp_create caller b)
     = (mkResponse 400 (ErrorJson "Already RSVP'd to this event"), w))
  ∧ (∀ reqs w,
       Forall lookup_answered reqs →
       one_rsvp_per_pair w →
       one_rsvp_per_pair (serve isISO8601 reqs w)).
Proof.
  split.
  - intros env w caller b k r p requested Hne Hget [[rev ev] Hev] Hview Hk He Hu.
    rewrite run_rsvp_create. fold requested. rewrite Hne. cbn [negb perform].
    rewrite (reading_ok _ _ _ _ Hget), (db_get_Some _ _ _ _ Hev).
    rewrite (reading_ok _ _ _ _ Hview). cbn [fst rsvp_checks].
    rewrite (existsb_true_elem_of _ _ (mkDoc k r p)); [reflexivity | |].
    + apply elem_of_view_by_event. split; [exact Hk |].
      split; [| exact He]. cbn. rewrite He. exact Hne.
    + apply String.eqb_eq, Hu.
  - intros reqs. induction reqs as [| [env r] reqs IH]; intros w Hlook Hone;
      [exact Hone |].
    rewrite serve_cons. inversion Hlook as [| ? ? Hl Hlook']; subst.
    apply IH; [exact Hlook' |].
    destruct r as [caller b | | | |].
    + apply rsvp_create_one_per_pair; [exact Hl | exact Hone].
    + eapply one_rsvp_per_pair_subseteq; [| exact Hone].
      apply run_never_inserts, never_inserts_route. intros [].
    + eapply one_rsvp_per_pair_subseteq; [| exact Hone].
      apply run_never_inserts, never_inserts_route. intros [].
    + eapply one_rsvp_per_pair_subseteq; [| exact Hone].
      apply run_never_inserts, never_inserts_route. intros [].
    + eapply one_rsvp_per_pair_subseteq; [| exact Hone].
      apply run_never_inserts, never_inserts_route. intros [].
Qed.

Lemma within_capacity_no_participants w :
  participants w = ∅ →
  (∀ id rev ev c,
     events w !! id = Some (rev, ev) → maxParticipants ev = Some c →
     (0 ≤ c)%Z) →
  within_capacity w.
Proof.
  intros Hempty Hpos id rev ev c Hev Hmax _. rewrite Hempty.
  change (view_by_event ∅ id) with (@nil (Doc Participant)). cbn.
  eapply Hpos; eassumption.
Qed.

Lemma sample_world_within_capacity : within_capacity Sample.world.
Proof.
  apply within_capacity_no_participants; [reflexivity |].
  intros id rev ev c Hev Hmax. cbn in Hev.
  apply lookup_insert_Some in Hev as [[_ [= <- <-]] | [_ Hev]].
  - injection Hmax as <-. lia.
  - apply lookup_singleton_Some in Hev as [_ [= <- <-]]. discriminate.
Qed.

Lemma rsvp_capacity_run_alone_witness :
  run Sample.env2 Sample.world_full (rsvp_create Sample.bob (Some "e1"))
  = (mkResponse 400 (ErrorJson "Event is full"), Sample.world_full)
  ∧ within_capacity
      (serve Sample.isISO8601
         [(Sample.env1, PostParticipant Sample.alice (Some "e1"));
          (Sample.env2, PostParticipant Sample.bob (Some "e1"))]
         Sample.world).
Proof.
  split.
  - apply (proj1 (rsvp_capacity_run_alone Sample.isISO8601)
             Sample.env2 Sample.world_full Sample.bob (Some "e1")
             1%nat Sample.standup 1%Z);
      [reflexivity | reflexivity | reflexivity | reflexivity | reflexivity
      | lia | vm_compute; discriminate].
  - apply (proj2 (rsvp_capacity_run_alone Sample.isISO8601)).
    + repeat constructor.
    + repeat constructor.
    + exact sample_world_within_capacity.
Defined.

(** C1, as stated, fails.  Two requests for the one place of an event,
    their store calls alternating, are both answered 201 and leave two
    participants; and a request run alone at a full event whose lookup
    fails is answered 201 as well. *)
Lemma rsvp_capacity_exceeded :
  (within_capacity Sample.world
   ∧ maxParticipants Sample.standup = Some 1%Z
   ∧ let done :=
       interleave Sample.alternate Sample.world
         [rsvp_create Sample.alice (Some "e1");
          rsvp_create Sample.bob (Some "e1")] in
     (fmap status ∘ response) <$> done.1 = [Some 201; Some 201]
     ∧ length (view_by_event (participants done.2) "e1") = 2
     ∧ ¬ within_capacity done.2)
  ∧ (within_capacity Sample.world_full
     ∧ let done :=
         run Sample.env2_no_view Sample.world_full
           (rsvp_create Sample.bob (Some "e1")) in
       status done.1 = 201
       ∧ length (view_by_event (participants done.2) "e1") = 2
       ∧ ¬ within_capacity done.2).
Proof.
  assert (∀ w, events w !! "e1" = Some (1, Sample.standup) →
               length (view_by_event (participants w) "e1") = 2 →
               ¬ within_capacity w) as Hover.
  { intros w Hev Hlen Hcap.
    specialize (Hcap "e1" 1 Sample.standup 1%Z Hev eq_refl).
    rewrite Hlen in Hcap. lia. }
  split.
  - split; [exact sample_world_within_capacity |]. split; [reflexivity |].
    cbv zeta. split; [vm_compute; reflexivity |].
    split; [vm_compute; reflexivity |].
    apply Hover; vm_compute; reflexivity.
  - split.
    + intros id rev ev c Hev Hmax Hc. cbn in Hev.
      apply lookup_insert_Some in Hev as [[<- [= <- <-]] | [_ Hev]].
      * injection Hmax as <-. vm_compute. discriminate.
      * apply lookup_singleton_Some in Hev as [_ [= <- <-]]. discriminate.
    + cbv zeta. split; [vm_compute; reflexivity |].
      split; [vm_compute; reflexivity |].
      apply Hover; vm_compute; reflexivity.
Qed.

Lemma rsvp_unique_run_alone_witness :
  run Sample.env2 Sample.world_full (rsvp_create Sample.alice (Some "e1"))
  = (mkResponse 400 (ErrorJson "Already RSVP'd to this event"),
     Sample.world_full)
  ∧ one_rsvp_per_pair
      (serve Sample.isISO8601
         [(Sample.env1, PostParticipant Sample.alice (Some "e2"));
          (Sample.env2, PostParticipant Sample.alice (Some "e2"));
          (Sample.env2, DeleteParticipantOf Sample.alice "e2" "u-alice")]
         Sample.world).
Proof.
  split.
  - apply (proj1 (rsvp_unique_run_alone Sample.isISO8601)
             Sample.env2 Sample.world_full Sample.alice (Some "e1")
             "p1" 1%nat (Sample.rsvp Sample.alice "e1" Sample.standup).2);
      [reflexivity | reflexivity | eexists; reflexivity | reflexivity
      | reflexivity | reflexivity | reflexivity].
  - apply (proj2 (rsvp_unique_run_alone Sample.isISO8601)).
    + repeat constructor.
    + intros k1 k2 r1 r2 p1 p2 H1. cbn in H1. rewrite lookup_empty in H1.
      discriminate.
Defined.

(** C2, as stated, fails.  One user's two requests for an event, their
    store calls alternating, are both answered 201 and leave two
    participants for the pair; and so does a second request after the
    first, with no cancellation in between, when its lookup fails. *)
Lemma rsvp_twice_by_one_user :
  (one_rsvp_per_pair Sample.world
   ∧ let done :=
       interleave Sample.alternate Sample.world
         [rsvp_create Sample.alice (Some "e2");
          rsvp_create Sample.alice (Some "e2")] in
     (fmap status ∘ response) <$> done.1 = [Some 201; Some 201]
     ∧ ¬ one_rsvp_per_pair done.2)
  ∧ (let first :=
       run Sample.env1 Sample.world (rsvp_create Sample.alice (Some "e2")) in
     let second :=
       run Sample.env2_no_view first.2 (rsvp_create Sample.alice (Some "e2")) in
     status first.1 = 201
     ∧ status second.1 = 201
     ∧ status second.1 ≠ 400
     ∧ ¬ one_rsvp_per_pair second.2).
Proof.
  assert (∀ w,
            participants w !! "p1"
            = Some (1, new_participant "e2" Sample.alice
                         (mkDoc "e2" 1 Sample.meetup) (clock Sample.env1)) →
            participants w !! "p2"
            = Some (1, new_participant "e2" Sample.alice
                         (mkDoc "e2" 1 Sample.meetup) (clock Sample.env2)) →
            ¬ one_rsvp_per_pair w) as Htwo.
  { intros w H1 H2 Hone.
    specialize (Hone "p1" "p2" _ _ _ _ H1 H2 eq_refl eq_refl). discriminate. }
  split.
  - split.
    + intros k1 k2 r1 r2 p1 p2 H1. cbn in H1. rewrite lookup_empty in H1.
      discriminate.
    + cbv zeta. split; [vm_compute; reflexivity |].
      apply Htwo; vm_compute; reflexivity.
  - cbv zeta. split; [vm_compute; reflexivity |].
    split; [vm_compute; reflexivity |].
    split; [vm_compute; discriminate |].
    apply Htwo; vm_compute; reflexivity.
Qed.

(** ** The fan-out of event deletion *)

Lemma run_destroy_all env rows : ∀ w,
  NoDup (_id <$> rows) →
  (∀ d, d ∈ rows → participants w !! _id d = Some (_rev d, body d)) →
  ∃ db',
    run env w (destroy_all rows) = (outcome env <$> rows, set_participants db' w)
    ∧ (∀ d, d ∈ rows →
         db' !! _id d
         = match fault env _ (ParticipantsDestroy (_id d) (_rev d)) with
           | None => None
           | Some _ => Some (_rev d, body d)
           end)
    ∧ (∀ k, k ∉ _id <$> rows → db' !! k = participants w !! k).
Proof.
  induction rows as [| d rows IH]; intros w Hdup Hcur.
  - exists (participants w). split; [destruct w; reflexivity |].
    split; [intros d Hd; inversion Hd | reflexivity].
  - rewrite fmap_cons in Hdup. apply NoDup_cons in Hdup as [Hd Hdup].
    assert (participants w !! _id d = Some (_rev d, body d)) as Hlook
      by (apply Hcur; left).
    cbn [destroy_all]. rewrite run_bind. cbn [await run perform].
    rewrite fmap_cons. unfold writing, db_destroy. rewrite Hlook.
    destruct (fault env _ (ParticipantsDestroy (_id d) (_rev d))) as [e |]
      eqn:Hfault.
    + assert (outcome env d = Rejected e) as ->
        by (unfold outcome; rewrite Hfault; reflexivity).
      destruct (IH w Hdup) as (db' & Hrun & Hrows & Hother).
      { intros d' Hd'. apply Hcur. right. exact Hd'. }
      rewrite run_bind, Hrun. cbn. exists db'. split; [reflexivity |]. split.
      * intros d' Hd'. apply elem_of_cons in Hd' as [-> | Hd'].
        -- rewrite Hfault, Hother; [exact Hlook | exact Hd].
        -- apply Hrows, Hd'.
      * intros k Hk. apply Hother.
        apply not_elem_of_cons in Hk as [_ Hk]. exact Hk.
    + assert (outcome env d = Resolved tt) as ->
        by (unfold outcome; rewrite Hfault; reflexivity).
      destruct (decide (_rev d = _rev d)); [| contradiction]. cbn [fst snd].
      set (w1 := set_participants (delete (_id d) (participants w)) w).
      destruct (IH w1 Hdup) as (db' & Hrun & Hrows & Hother).
      { intros d' Hd'. cbn. rewrite lookup_delete_ne.
        - apply Hcur. right. exact Hd'.
        - intros Heq. apply Hd. rewrite Heq. apply list_elem_of_fmap_2, Hd'. }
      rewrite run_bind, Hrun. cbn. exists db'. split; [reflexivity |]. split.
      * intros d' Hd'. apply elem_of_cons in Hd' as [-> | Hd'].
        -- rewrite Hfault, Hother by exact Hd. cbn. apply lookup_delete_eq.
        -- apply Hrows, Hd'.
      * intros k Hk.
        apply not_elem_of_cons in Hk as [Hne Hk]. rewrite (Hother k Hk). cbn.
        apply lookup_delete_ne. congruence.
Qed.

Lemma first_rejection_None {A} arrival i (rs : list (Result A)) :
  first_rejection arrival i rs = None ↔ ∀ e, Rejected e ∉ rs.
Proof.
  revert i. induction rs as [| r rs IH]; intros i; cbn [first_rejection].
  - split; [intros _ e He; inversion He | reflexivity].
  - destruct r as [a | e0].
    + rewrite IH. split; intros H e He.
      * apply elem_of_cons in He as [He | He]; [discriminate | exact (H e He)].
      * apply (H e). right. exact He.
    + split.
      * destruct (first_rejection arrival (S i) rs) as [[t e'] |];
          [destruct (t <? arrival i)%nat |]; intros H; discriminate H.
      * intros H. exfalso. apply (H e0). left.
Qed.

Lemma first_rejection_Some {A} arrival i (rs : list (Result A)) t e :
  first_rejection arrival i rs = Some (t, e) →
  ∃ j, rs !! j = Some (Rejected e) ∧ t = arrival (i + j)%nat
       ∧ ∀ j' e', rs !! j' = Some (Rejected e') →
                  (arrival (i + j) ≤ arrival (i + j'))%nat.
Proof.
  revert i t e. induction rs as [| r rs IH]; intros i t e;
    cbn [first_rejection]; [discriminate |].
  destruct r as [a | e0].
  - intros Hfirst. destruct (IH _ _ _ Hfirst) as (j & Hj & Ht & Hmin).
    exists (S j). rewrite Nat.add_succ_r. split; [exact Hj |].
    split; [exact Ht |]. intros [| j'] e' Hj'; [discriminate |].
    rewrite Nat.add_succ_r. exact (Hmin j' e' Hj').
  - destruct (first_rejection arrival (S i) rs) as [[t' e'] |] eqn:Hrest.
    + destruct (IH _ _ _ Hrest) as (j & Hj & Ht & Hmin).
      destruct (t' <? arrival i)%nat eqn:Hlt; intros [= <- <-].
      * apply Nat.ltb_lt in Hlt. exists (S j). rewrite Nat.add_succ_r.
        split; [exact Hj |]. split; [exact Ht |].
        intros [| j'] e'' Hj'.
        -- rewrite Nat.add_0_r. cbn in Ht. lia.
        -- rewrite Nat.add_succ_r. exact (Hmin j' e'' Hj').
      * apply Nat.ltb_ge in Hlt. exists 0%nat. rewrite Nat.add_0_r.
        split; [reflexivity |]. split; [reflexivity |].
        intros [| j'] e'' Hj'; [rewrite Nat.add_0_r; lia |].
        rewrite Nat.add_succ_r. specialize (Hmin j' e'' Hj'). cbn in Ht, Hmin.
        lia.
    + intros [= <- <-]. exists 0%nat. rewrite Nat.add_0_r.
      split; [reflexivity |]. split; [reflexivity |].
      intros [| j'] e'' Hj'; [rewrite Nat.add_0_r; lia |].
      exfalso. apply (proj1 (first_rejection_None _ _ _) Hrest e'').
      cbn in Hj'. exact (list_elem_of_lookup_2 _ _ _ Hj').
Qed.

Lemma outcome_Rejected env d e :
  outcome env d = Rejected e
  ↔ fault env _ (ParticipantsDestroy (_id d) (_rev d)) = Some e.
Proof.
  unfold outcome.
  destruct (fault env _ (ParticipantsDestroy (_id d) (_rev d)));
    split; congruence.
Qed.

Lemma promise_all_resolved env rows :
  (∀ d, d ∈ rows →
        fault env _ (ParticipantsDestroy (_id d) (_rev d)) = None) →
  promise_all (arrival env) (outcome env <$> rows) = Resolved tt.
Proof.
  intros Hok. unfold promise_all.
  rewrite (proj2 (first_rejection_None (arrival env) 0 (outcome env <$> rows)));
    [reflexivity |].
  intros e He. apply list_elem_of_fmap in He as (d & Hd & Hin).
  symmetry in Hd. apply outcome_Rejected in Hd. rewrite (Hok d Hin) in Hd.
  discriminate.
Qed.

(** [Promise.all] over a fan-out with a failure: rejected with the failure
    whose answer arrives first. *)
Lemma promise_all_rejected env rows d :
  d ∈ rows →
  fault env _ (ParticipantsDestroy (_id d) (_rev d)) ≠ None →
  ∃ i d' e,
    rows !! i = Some d'
    ∧ fault env _ (ParticipantsDestroy (_id d') (_rev d')) = Some e
    ∧ (∀ j d'',
         rows !! j = Some d'' →
         fault env _ (ParticipantsDestroy (_id d'') (_rev d'')) ≠ None →
         (arrival env i ≤ arrival env j)%nat)
    ∧ promise_all (arrival env) (outcome env <$> rows) = Rejected e.
Proof.
  intros Hd Hfail. unfold promise_all.
  destruct (first_rejection (arrival env) 0 (outcome env <$> rows))
    as [[t e] |] eqn:Hfirst.
  - apply first_rejection_Some in Hfirst as (i & Hi & _ & Hmin).
    rewrite list_lookup_fmap in Hi.
    destruct (rows !! i) as [d' |] eqn:Hrow; [| discriminate].
    injection Hi as Hi. apply outcome_Rejected in Hi.
    exists i, d', e. split; [exact Hrow |]. split; [exact Hi |].
    split; [| reflexivity].
    intros j d'' Hj Hfail'.
    destruct (fault env _ (ParticipantsDestroy (_id d'') (_rev d'')))
      as [e'' |] eqn:Hf; [| contradiction].
    apply (Hmin j e''). rewrite list_lookup_fmap, Hj. cbn. f_equal.
    apply outcome_Rejected, Hf.
  - exfalso.
    destruct (fault env _ (ParticipantsDestroy (_id d) (_rev d))) as [e |]
      eqn:Hf; [| contradiction].
    apply (proj1 (first_rejection_None _ _ _) Hfirst e).
    apply list_elem_of_fmap. exists d. split; [| exact Hd].
    symmetry. apply outcome_Rejected, Hf.
Qed.

(** The inner [try] of event deletion, run alone. *)
Lemma run_delete_participants env w id :
  let rows := view_by_event (participants w) id in
  let w' := (run env w (delete_participants id)).2 in
  users w' = users w ∧ events w' = events w
  ∧ match fault env _ (ParticipantsView id) with
    | Some e =>
        participants w' = participants w
        ∧ console w' = (console w ++ [("Error deleting participants:", e)])%list
    | None =>
        (∀ d, d ∈ rows →
           participants w' !! _id d
           = match fault env _ (ParticipantsDestroy (_id d) (_rev d)) with
             | None => None
             | Some _ => Some (_rev d, body d)
             end)
        ∧ (∀ k, k ∉ _id <$> rows → participants w' !! k = participants w !! k)
        ∧ console w'
          = (console w
             ++ match promise_all (arrival env) (outcome env <$> rows) with
                | Rejected e => [("Error deleting participants:", e)]
                | Resolved _ => []
                end)%list
    end.
Proof.
  intros rows w'. subst w'. unfold delete_participants.
  rewrite run_await. cbn [perform]. unfold reading.
  destruct (fault env _ (ParticipantsView id)) as [e |].
  { cbn. auto. }
  cbn [fst snd]. fold rows.
  destruct (run_destroy_all env rows w) as (db' & Hrun & Hrows & Hother).
  { apply NoDup_view_ids. }
  { intros d Hd. apply elem_of_view_by_event in Hd as [Hd _]. exact Hd. }
  destruct (0 <? length rows)%nat eqn:Hlen.
  - rewrite run_bind, Hrun. cbv beta iota. rewrite run_await.
    cbn [perform fst snd].
    destruct (promise_all (arrival env) (outcome env <$> rows)) as [[] | e];
      cbn.
    + rewrite app_nil_r. auto.
    + auto.
  - apply Nat.ltb_ge in Hlen. destruct rows as [| d0 rows0]; [| cbn in Hlen; lia].
    cbn. rewrite app_nil_r. split; [reflexivity |]. split; [reflexivity |].
    split; [intros d Hd; inversion Hd |]. split; reflexivity.
Qed.

(** ** Event deletion *)

Lemma run_delete_event env w caller id rev ev :
  fault env _ (EventsGet id) = None →
  events w !! id = Some (rev, ev) →
  creatorId ev = _id caller →
  fault env _ (EventsDestroy id rev) = None →
  run env w (delete_event caller id)
  = (mkResponse 200 (MessageJson "Event and linked RSVPs deleted successfully"),
     set_events (delete id (events w))
       (run env w (delete_participants id)).2).
Proof.
  intros Hget Hev Hcreator Hdestroy. unfold delete_event.
  rewrite run_await. cbn [perform].
  rewrite (reading_ok _ _ _ _ Hget), (db_get_Some _ _ _ _ Hev). cbn [fst snd body].
  destruct (decide (creatorId ev ≠ _id caller)); [contradiction |].
  rewrite run_bind.
  destruct (run_delete_participants env w id) as (_ & Hevents & _).
  destruct (run env w (delete_participants id)) as [[] w1]. cbn [snd] in *.
  rewrite run_await. cbn [perform _rev].
  rewrite (writing_ok _ _ _ _ _ Hdestroy). unfold db_destroy.
  rewrite Hevents, Hev. destruct (decide (rev = rev)); [| contradiction].
  reflexivity.
Qed.


(** C4, as the code has it: whatever the store answers to the lookup
    and to the deletions of the participants, the deletion of an existing
    event by its creator removes the event (its own lookup and deletion
    being answered) and answers success for the event and the linked
    RSVPs; each participant of the event whose deletion the store accepts
    is removed whether or not the deletion of another one fails; the
    failures are caught by the one handler around the lookup and the
    fan-out, which writes a single line to the console: for the failed
    lookup, or for the failed deletion whose answer arrives first. *)
Theorem delete_event_despite_failures env w caller id rev ev :
  fault env _ (EventsGet id) = None →
  events w !! id = Some (rev, ev) →
  creatorId ev = _id caller →
  fault env _ (EventsDestroy id rev) = None →
  let rows := view_by_event (participants w) id in
  let w' := (run env w (delete_event caller id)).2 in
  (run env w (delete_event caller id)).1
  = mkResponse 200 (MessageJson "Event and linked RSVPs deleted successfully")
  ∧ events w' = delete id (events w)
  ∧ (fault env _ (ParticipantsView id) = None →
     ∀ d, d ∈ rows →
       fault env _ (ParticipantsDestroy (_id d) (_rev d)) = None →
       participants w' !! _id d = None)
  ∧ (∀ e,
       fault env _ (ParticipantsView id) = Some e →
       console w' = (console w ++ [("Error deleting participants:", e)])%list)
  ∧ (fault env _ (ParticipantsView id) = None →
     (∀ d, d ∈ rows →
        fault env _ (ParticipantsDestroy (_id d) (_rev d)) = None) →
     console w' = console w)
  ∧ (fault env _ (ParticipantsView id) = None →
     (∃ d, d ∈ rows
           ∧ fault env _ (ParticipantsDestroy (_id d) (_rev d)) ≠ None) →
     ∃ i d e,
       rows !! i = Some d
       ∧ fault env _ (ParticipantsDestroy (_id d) (_rev d)) = Some e
       ∧ (∀ j d',
            rows !! j = Some d' →
            fault env _ (ParticipantsDestroy (_id d') (_rev d')) ≠ None →
            (arrival env i ≤ arrival env j)%nat)
       ∧ console w'
         = (console w ++ [("Error deleting participants:", e)])%list)
  ∧ (length (console w') ≤ S (length (console w)))%nat.
Proof.
  intros Hget Hev Hcreator Hdestroy rows w'. subst w'.
  rewrite (run_delete_event env w caller id rev ev) by auto.
  destruct (run_delete_participants env w id) as (_ & _ & Hparts).
  fold rows in Hparts.
  set (w1 := (run env w (delete_participants id)).2) in *. cbn [fst snd].
  split; [reflexivity |]. split; [reflexivity |].
  change (console (set_events (delete id (events w)) w1)) with (console w1).
  destruct (fault env _ (ParticipantsView id)) as [e |].
  - destruct Hparts as [_ Hconsole]. split; [discriminate |].
    split; [intros e' [= <-]; exact Hconsole |].
    split; [discriminate |]. split; [discriminate |].
    rewrite Hconsole, length_app. cbn. lia.
  - destruct Hparts as (Hrows & _ & Hconsole). split.
    { intros _ d Hd Hok. cbn [participants set_events].
      fold (participants w1). rewrite (Hrows d Hd), Hok. reflexivity. }
    split; [discriminate |]. split; [| split].
    + intros _ Hok. rewrite Hconsole, (promise_all_resolved env rows Hok).
      apply app_nil_r.
    + intros _ (d & Hd & Hfail).
      destruct (promise_all_rejected env rows d Hd Hfail)
        as (i & d' & e & Hi & He & Hfirst & Hall).
      exists i, d', e. rewrite Hconsole, Hall. auto.
    + rewrite Hconsole, length_app.
      destruct (promise_all (arrival env) (outcome env <$> rows)) as [[] | e];
        cbn; lia.
Qed.


Lemma delete_event_despite_failures_witness :
  let w' :=
    (run Sample.env_destroy_p1_fails Sample.world_rsvps
       (delete_event Sample.bob "e2")).2 in
  (run Sample.env_destroy_p1_fails Sample.world_rsvps
     (delete_event Sample.bob "e2")).1
  = mkResponse 200 (MessageJson "Event and linked RSVPs deleted successfully")
  ∧ events w' = delete "e2" (events Sample.world_rsvps)
  ∧ participants w' !! "p2" = None
  ∧ length (console w') = 1.
Proof.
  destruct (delete_event_despite_failures Sample.env_destroy_p1_fails
              Sample.world_rsvps Sample.bob "e2" 1%nat Sample.meetup)
    as (Hres & Hevents & Hsiblings & _ & _ & Hlogged & _);
    [reflexivity | reflexivity | reflexivity | reflexivity |].
  split; [exact Hres |]. split; [exact Hevents |]. split.
  - apply (Hsiblings eq_refl
             (mkDoc "p2" 1 (Sample.rsvp Sample.bob "e2" Sample.meetup).2));
      [| reflexivity].
    vm_compute. right. left.
  - destruct (Hlogged eq_refl) as (i & d & e & _ & _ & _ & Hconsole).
    + exists (mkDoc "p1" 1 (Sample.rsvp Sample.alice "e2" Sample.meetup).2).
      split; [vm_compute; left | discriminate].
    + cbv zeta. rewrite Hconsole. reflexivity.
Defined.

(** C4, as stated, fails in what is logged.  The store refuses the
    deletion of both participants of an event, with different errors; the
    event is deleted and success answered, and the console holds one line,
    for the refusal whose answer arrives first, whichever of the two that
    is: the other refusal is not logged. *)
Lemma delete_event_logs_one_failure :
  let rows := view_by_event (participants Sample.world_rsvps) "e2" in
  let done :=
    run Sample.env_destroys_fail Sample.world_rsvps
      (delete_event Sample.bob "e2") in
  let done' :=
    run Sample.env_destroys_fail_second_first Sample.world_rsvps
      (delete_event Sample.bob "e2") in
  outcome Sample.env_destroys_fail <$> rows
  = [Rejected (HttpError 500); Rejected (HttpError 503)]
  ∧ outcome Sample.env_destroys_fail_second_first <$> rows
    = [Rejected (HttpError 500); Rejected (HttpError 503)]
  ∧ status done.1 = 200
  ∧ events done.2 !! "e2" = None
  ∧ console done.2 = [("Error deleting participants:", HttpError 500)]
  ∧ status done'.1 = 200
  ∧ events done'.2 !! "e2" = None
  ∧ console done'.2 = [("Error deleting participants:", HttpError 503)].
Proof.
  cbv zeta. repeat split; vm_compute; reflexivity.
Qed.


(** * Further properties of the routes *)

(** ** RSVP creation accepted, and undone *)

Lemma view_by_event_insert_other db k r p key :
  db !! k = None →
  ¬ by_event key (mkDoc k r p) →
  view_by_event (<[k := (r, p)]> db) key ≡ₚ view_by_event db key.
Proof.
  intros Hk Hnot. rewrite (view_by_event_insert _ _ _ _ _ Hk).
  rewrite filter_cons_False by exact Hnot. reflexivity.
Qed.

Lemma view_by_event_insert_same db k r p key :
  db !! k = None →
  by_event key (mkDoc k r p) →
  view_by_event (<[k := (r, p)]> db) key ≡ₚ mkDoc k r p :: view_by_event db key.
Proof.
  intros Hk Hby. rewrite (view_by_event_insert _ _ _ _ _ Hk).
  rewrite filter_cons_True by exact Hby. reflexivity.
Qed.

Lemma insert_then_delete w k (q : nat * Participant) :
  participants w !! k = None →
  set_participants
    (delete k (participants (set_participants (<[k := q]> (participants w)) w)))
    (set_participants (<[k := q]> (participants w)) w)
  = w.
Proof.
  intros Hk. cbn. rewrite (delete_insert_id _ _ _ Hk). destruct w; reflexivity.
Qed.

Lemma rsvp_checks_pass caller event rows :
  (∀ d, d ∈ rows → userId (body d) ≠ _id caller) →
  full (body event) rows = false →
  rsvp_checks caller event (Resolved rows) = None.
Proof.
  intros Hnew Hfull. unfold rsvp_checks.
  destruct (existsb _ rows) eqn:Hdup.
  - apply existsb_exists in Hdup as (d & Hd & Heq).
    apply String.eqb_eq in Heq. exfalso.
    apply (Hnew d); [apply list_elem_of_In, Hd | exact Heq].
  - rewrite Hfull. reflexivity.
Qed.

(** An RSVP that passes both checks and whose insert is accepted. *)
Lemma run_rsvp_create_accepted env w caller b rev ev :
  let requested := trim (default EmptyString b) in
  let p :=
    new_participant requested caller (mkDoc requested rev ev) (clock env) in
  notEmpty requested = true →
  fault env _ (EventsGet requested) = None →
  events w !! requested = Some (rev, ev) →
  fault env _ (ParticipantsView requested) = None →
  (∀ d, d ∈ view_by_event (participants w) requested →
        userId (body d) ≠ _id caller) →
  full ev (view_by_event (participants w) requested) = false →
  fault env _ (ParticipantsInsert p) = None →
  participants w !! uuid env = None →
  run env w (rsvp_create caller b)
  = (mkResponse 201 (ParticipantJson "RSVP successful" (uuid env) p),
     set_participants (<[uuid env := (1, p)]> (participants w)) w).
Proof.
  intros requested p Hne Hget Hev Hview Hnew Hfull Hins Hfresh.
  rewrite run_rsvp_create. fold requested. rewrite Hne. cbn [negb perform].
  rewrite (reading_ok _ _ _ _ Hget), (db_get_Some _ _ _ _ Hev).
  rewrite (reading_ok _ _ _ _ Hview). cbn [fst].
  rewrite rsvp_checks_pass by assumption.
  fold p. rewrite (writing_ok _ _ _ _ _ Hins). unfold db_post.
  rewrite Hfresh. reflexivity.
Qed.

(** The owner's cancellation by id, the store answering. *)
Lemma run_cancel_rsvp_owner env w caller id rev p :
  fault env _ (ParticipantsGet id) = None →
  participants w !! id = Some (rev, p) →
  userId p = _id caller →
  fault env _ (ParticipantsDestroy id rev) = None →
  run env w (cancel_rsvp caller id)
  = (mkResponse 200 (MessageJson "RSVP cancelled successfully"),
     set_participants (delete id (participants w)) w).
Proof.
  intros Hget Hp Howner Hdestroy.
  unfold cancel_rsvp. rewrite run_await. cbn [perform].
  rewrite (reading_ok _ _ _ _ Hget), (db_get_Some _ _ _ _ Hp).
  cbn [fst snd body _rev].
  destruct (decide (userId p ≠ _id caller)); [contradiction |].
  rewrite run_await. cbn [perform].
  rewrite (writing_ok _ _ _ _ _ Hdestroy). unfold db_destroy. rewrite Hp.
  destruct (decide (rev = rev)); [reflexivity | contradiction].
Qed.

(** X1: an RSVP run alone for an existing event, by a user who is not
    among its participants, while the event is not full, with every store
    call answered and a fresh id, is answered 201 with the new participant:
    a snapshot of the user and of the event, stored under the id the store
    assigned.  The event has this one participant more, the participants
    of the other events are as before. *)
Theorem rsvp_create_accepted env w caller b rev ev :
  let requested := trim (default EmptyString b) in
  let p :=
    new_participant requested caller (mkDoc requested rev ev) (clock env) in
  let w' := set_participants (<[uuid env := (1, p)]> (participants w)) w in
  notEmpty requested = true →
  fault env _ (EventsGet requested) = None →
  events w !! requested = Some (rev, ev) →
  fault env _ (ParticipantsView requested) = None →
  (∀ d, d ∈ view_by_event (participants w) requested →
        userId (body d) ≠ _id caller) →
  full ev (view_by_event (participants w) requested) = false →
  fault env _ (ParticipantsInsert p) = None →
  participants w !! uuid env = None →
  run env w (rsvp_create caller b)
  = (mkResponse 201 (ParticipantJson "RSVP successful" (uuid env) p), w')
  ∧ view_by_event (participants w') requested
    ≡ₚ mkDoc (uuid env) 1 p :: view_by_event (participants w) requested
  ∧ (∀ key, key ≠ requested →
       view_by_event (participants w') key
       ≡ₚ view_by_event (participants w) key).
Proof.
  intros requested p w' Hne Hget Hev Hview Hnew Hfull Hins Hfresh.
  split; [| split].
  - apply run_rsvp_create_accepted; assumption.
  - apply view_by_event_insert_same; [exact Hfresh |].
    apply by_event_new_participant; [exact Hne | reflexivity].
  - intros key Hkey. apply view_by_event_insert_other; [exact Hfresh |].
    intros Hby. apply by_event_new_participant in Hby; [| exact Hne].
    congruence.
Qed.

Lemma rsvp_create_accepted_witness :
  (run Sample.env1 Sample.world (rsvp_create Sample.alice (Some "e1"))).1
  = mkResponse 201
      (ParticipantJson "RSVP successful" "p1"
         (new_participant "e1" Sample.alice (mkDoc "e1" 1 Sample.standup)
            (clock Sample.env1))).
Proof.
  destruct (rsvp_create_accepted Sample.env1 Sample.world Sample.alice
              (Some "e1") 1%nat Sample.standup) as [Hrun _];
    [reflexivity | reflexivity | reflexivity | reflexivity
    | intros d Hd; vm_compute in Hd; inversion Hd | reflexivity | reflexivity
    | reflexivity |].
  rewrite Hrun. reflexivity.
Defined.

(** X2: RSVP creation answers a missing, empty or blank eventId with 400
    before any store call, and every failure of the event lookup, whatever
    its status, like a missing event, with 404 "Event not found"; nothing
    is written in either case, not even to the console. *)
Theorem rsvp_create_refused_early env w caller b :
  let requested := trim (default EmptyString b) in
  (notEmpty requested = false →
   run env w (rsvp_create caller b) = (mkResponse 400 ErrorsJson, w))
  ∧ (notEmpty requested = true →
     fault env _ (EventsGet requested) ≠ None
     ∨ events w !! requested = None →
     run env w (rsvp_create caller b)
     = (mkResponse 404 (ErrorJson "Event not found"), w)).
Proof.
  intros requested. split.
  - intros Hne. rewrite run_rsvp_create. fold requested. rewrite Hne.
    reflexivity.
  - intros Hne Hmissing. rewrite run_rsvp_create. fold requested.
    rewrite Hne. cbn [negb perform]. unfold reading, db_get.
    destruct (fault env _ (EventsGet requested)) as [e |]; [reflexivity |].
    destruct Hmissing as [Hfault | Hnone]; [contradiction |].
    rewrite Hnone. reflexivity.
Qed.

Lemma rsvp_create_refused_early_witness :
  run Sample.env1 Sample.world (rsvp_create Sample.alice (Some "  "))
  = (mkResponse 400 ErrorsJson, Sample.world)
  ∧ run Sample.env1 Sample.world (rsvp_create Sample.alice (Some "e7"))
    = (mkResponse 404 (ErrorJson "Event not found"), Sample.world).
Proof.
  split.
  - apply (proj1 (rsvp_create_refused_early Sample.env1 Sample.world
                    Sample.alice (Some "  "))).
    reflexivity.
  - apply (proj2 (rsvp_create_refused_early Sample.env1 Sample.world
                    Sample.alice (Some "e7")));
      [reflexivity | right; reflexivity].
Defined.

(** X3: the owner's cancellation by id of an existing RSVP, the store
    answering, is answered 200 and removes that participant and nothing
    else; the same request once more is answered 404 and changes
    nothing. *)
Theorem cancel_rsvp_once_and_again env env' w caller id rev p :
  let w' := set_participants (delete id (participants w)) w in
  fault env _ (ParticipantsGet id) = None →
  participants w !! id = Some (rev, p) →
  userId p = _id caller →
  fault env _ (ParticipantsDestroy id rev) = None →
  fault env' _ (ParticipantsGet id) = None →
  run env w (cancel_rsvp caller id)
  = (mkResponse 200 (MessageJson "RSVP cancelled successfully"), w')
  ∧ run env' w' (cancel_rsvp caller id)
    = (mkResponse 404 (ErrorJson "RSVP not found"), w').
Proof.
  intros w' Hget Hp Howner Hdestroy Hget'. split.
  - apply (run_cancel_rsvp_owner env w caller id rev p); assumption.
  - unfold cancel_rsvp. rewrite run_await. cbn [perform].
    rewrite (reading_ok _ _ _ _ Hget'). rewrite db_get_None; [reflexivity |].
    apply lookup_delete_eq.
Qed.

Lemma cancel_rsvp_once_and_again_witness :
  run Sample.env1 Sample.world_full (cancel_rsvp Sample.alice "p1")
  = (mkResponse 200 (MessageJson "RSVP cancelled successfully"),
     set_participants (delete "p1" (participants Sample.world_full))
       Sample.world_full).
Proof.
  apply (proj1 (cancel_rsvp_once_and_again Sample.env1 Sample.env2
                  Sample.world_full Sample.alice "p1" 1%nat
                  (Sample.rsvp Sample.alice "e1" Sample.standup).2
                  eq_refl eq_refl eq_refl eq_refl eq_refl)).
Defined.

(** X4: an accepted RSVP followed by its cancellation, by the id the 201
    answer gave or by the pair of event and user, leaves the world as it
    was before the RSVP. *)
Theorem rsvp_then_cancel_restores env env' w caller b rev ev :
  let requested := trim (default EmptyString b) in
  let p :=
    new_participant requested caller (mkDoc requested rev ev) (clock env) in
  let w' := (run env w (rsvp_create caller b)).2 in
  notEmpty requested = true →
  fault env _ (EventsGet requested) = None →
  events w !! requested = Some (rev, ev) →
  fault env _ (ParticipantsView requested) = None →
  (∀ d, d ∈ view_by_event (participants w) requested →
        userId (body d) ≠ _id caller) →
  full ev (view_by_event (participants w) requested) = false →
  fault env _ (ParticipantsInsert p) = None →
  participants w !! uuid env = None →
  (∀ X (op : Op X), fault env' X op = None) →
  run env' w' (cancel_rsvp caller (uuid env))
  = (mkResponse 200 (MessageJson "RSVP cancelled successfully"), w)
  ∧ run env' w' (cancel_rsvp_by_pair caller requested (_id caller))
    = (mkResponse 200 (MessageJson "RSVP cancelled successfully"), w).
Proof.
  intros requested p w' Hne Hget Hev Hview Hnew Hfull Hins Hfresh Hok.
  pose proof (run_rsvp_create_accepted env w caller b rev ev Hne Hget Hev
                Hview Hnew Hfull Hins Hfresh) as Hrun.
  fold requested p in Hrun. subst w'. rewrite Hrun. cbn [snd].
  set (w1 := set_participants (<[uuid env := (1, p)]> (participants w)) w)
    in *.
  assert (view_by_event (participants w1) requested
          ≡ₚ mkDoc (uuid env) 1 p :: view_by_event (participants w) requested)
    as Hsame.
  { apply view_by_event_insert_same; [exact Hfresh |].
    apply by_event_new_participant; [exact Hne | reflexivity]. }
  assert (set_participants (delete (uuid env) (participants w1)) w1 = w)
    as Hback.
  { apply insert_then_delete, Hfresh. }
  split.
  - rewrite (run_cancel_rsvp_owner env' w1 caller (uuid env) 1%nat p);
      try apply Hok; [| cbn; apply lookup_insert_eq | reflexivity].
    f_equal. exact Hback.
  - unfold cancel_rsvp_by_pair.
    destruct (decide (_id caller ≠ _id caller)); [contradiction |].
    rewrite run_await. cbn [perform]. rewrite (reading_ok _ _ _ _ (Hok _ _)).
    cbn [fst snd].
    destruct (find _ (view_by_event (participants w1) requested))
      as [d |] eqn:Hfind.
    + apply find_some in Hfind as [Hd Hmine].
      apply list_elem_of_In in Hd. apply String.eqb_eq in Hmine.
      assert (d = mkDoc (uuid env) 1 p) as ->.
      { rewrite Hsame in Hd. apply elem_of_cons in Hd as [-> | Hd];
          [reflexivity |].
        exfalso. exact (Hnew d Hd Hmine). }
      rewrite run_await. cbn [perform _id _rev].
      rewrite (writing_ok _ _ _ _ _ (Hok _ _)). unfold db_destroy.
      cbn [participants w1 set_participants]. rewrite lookup_insert_eq.
      destruct (decide (1 = 1)%nat); [| contradiction].
      cbn [fst snd]. unfold send. cbn [mret prog_ret run]. f_equal.
      exact Hback.
    + assert (mkDoc (uuid env) 1 p
              ∈ view_by_event (participants w1) requested) as Hin
        by (rewrite Hsame; left).
      apply list_elem_of_In in Hin.
      pose proof (find_none _ _ Hfind _ Hin) as Hmine. cbn in Hmine.
      rewrite String.eqb_refl in Hmine. discriminate.
Qed.

Lemma rsvp_then_cancel_restores_witness :
  let w' :=
    (run Sample.env1 Sample.world (rsvp_create Sample.alice (Some "e1"))).2 in
  run Sample.env2 w' (cancel_rsvp Sample.alice "p1")
  = (mkResponse 200 (MessageJson "RSVP cancelled successfully"), Sample.world)
  ∧ run Sample.env2 w' (cancel_rsvp_by_pair Sample.alice "e1" "u-alice")
    = (mkResponse 200 (MessageJson "RSVP cancelled successfully"),
       Sample.world).
Proof.
  apply (rsvp_then_cancel_restores Sample.env1 Sample.env2 Sample.world
           Sample.alice (Some "e1") 1%nat Sample.standup);
    [reflexivity | reflexivity | reflexivity | reflexivity
    | intros d Hd; vm_compute in Hd; inversion Hd | reflexivity | reflexivity
    | reflexivity | intros X op; reflexivity].
Defined.

(** ** Running scripts *)

Lemma execute_bind {A B} s w (p : Script A) (f : A → Script B) :
  execute s w (p ≫= f)
  = let '(a, w') := execute s w p in execute s w' (f a).
Proof.
  revert w. induction p as [a | X c k IH]; intros w; cbn; [reflexivity |].
  destruct (answer s w c) as [x w']. apply IH.
Qed.

Lemma execute_ask {X A} s w (c : Call X) (f : X → Script A) :
  execute s w (ask c ≫= f) = execute s (answer s w c).2 (f (answer s w c).1).
Proof. cbn. destruct (answer s w c); reflexivity. Qed.

(** A mutating route run as a script is the route run as a program. *)
Lemma execute_script {A} s w (p : Prog A) :
  execute s w (script p) = run (env s) w p.
Proof.
  revert w. induction p as [a | X op k IH]; intros w; cbn; [reflexivity |].
  destruct (perform (env s) w op) as [x w']. apply IH.
Qed.

Lemma elem_of_view_by_user db key d :
  d ∈ view_by_user db key
  ↔ db !! _id d = Some (_rev d, body d) ∧ by_user key d.
Proof.
  unfold view_by_user. rewrite list_elem_of_filter, elem_of_docs. tauto.
Qed.

Lemma elem_of_view_by_creator db key d :
  d ∈ view_by_creator db key
  ↔ db !! _id d = Some (_rev d, body d) ∧ by_creator key d.
Proof.
  unfold view_by_creator. rewrite list_elem_of_filter, elem_of_docs. tauto.
Qed.

Lemma with_id_fmap {A} (l : list (Doc A)) : with_id <$> l = l.
Proof. apply list_fmap_id. Qed.

(** ** The participants of an event, the RSVPs of a user *)

(** X5: [GET /participants/event/:eventId], when its lookup is answered,
    answers 200 with exactly the stored participants whose eventId is the
    one asked for, each once, and with their number as count; when the
    lookup fails it answers 500 and writes one line to the console.  No
    database is written. *)
Theorem get_participants_answer s w e :
  (fault (env s) _ (ParticipantsView e) = None →
   ∃ l,
     execute s w (get_participants e)
     = (mkReply 200 (ParticipantsPayload l (length l)), w)
     ∧ (∀ d, d ∈ l
             ↔ participants w !! _id d = Some (_rev d, body d)
               ∧ eventId (body d) = e ∧ e ≠ EmptyString)
     ∧ NoDup (_id <$> l))
  ∧ (∀ err,
       fault (env s) _ (ParticipantsView e) = Some err →
       execute s w (get_participants e)
       = (mkReply 500 (Plain (ErrorJson "Server error fetching participants")),
          log "Get participants error:" err w)).
Proof.
  split.
  - intros Hview. exists (view_by_event (participants w) e).
    split; [| split].
    + unfold get_participants. rewrite execute_ask. cbn [answer perform].
      rewrite (reading_ok _ _ _ _ Hview). cbn [fst snd].
      rewrite with_id_fmap. reflexivity.
    + intros d. rewrite elem_of_view_by_event. unfold by_event.
      rewrite truthy_true. split.
      * intros (Hd & Hne & He). rewrite He in Hne. auto.
      * intros (Hd & He & Hne). rewrite He. auto.
    + apply NoDup_view_ids.
  - intros err Hview. unfold get_participants. rewrite execute_ask.
    cbn [answer perform]. rewrite (reading_fault _ _ _ _ _ Hview).
    reflexivity.
Qed.

Lemma get_participants_answer_witness :
  (execute (mkSetting Sample.env1 (fun _ _ => None)) Sample.world_rsvps
     (get_participants "e2")).2 = Sample.world_rsvps
  ∧ execute (mkSetting Sample.env2_no_view (fun _ _ => None))
      Sample.world_rsvps (get_participants "e2")
    = (mkReply 500 (Plain (ErrorJson "Server error fetching participants")),
       log "Get participants error:" (HttpError 404) Sample.world_rsvps).
Proof.
  split.
  - destruct (proj1 (get_participants_answer
                       (mkSetting Sample.env1 (fun _ _ => None))
                       Sample.world_rsvps "e2") eq_refl) as (l & Hrun & _).
    rewrite Hrun. reflexivity.
  - apply (proj2 (get_participants_answer
                    (mkSetting Sample.env2_no_view (fun _ _ => None))
                    Sample.world_rsvps "e2")).
    reflexivity.
Defined.

Lemma isRSVPd_true rsvps id d :
  d ∈ rsvps → eventId (body d) = id → isRSVPd rsvps id = true.
Proof.
  intros Hd He. unfold isRSVPd. apply existsb_exists. exists d.
  split; [apply list_elem_of_In, Hd | apply String.eqb_eq, He].
Qed.


(** X6: once an RSVP is accepted, [GET /participants/my-rsvps] of the
    same user, its lookup answered, lists the new participant, and the
    client's [isRSVPd] holds for the event. *)
Theorem my_rsvps_after_rsvp env s w caller b rev ev :
  let requested := trim (default EmptyString b) in
  let p :=
    new_participant requested caller (mkDoc requested rev ev) (clock env) in
  let w' := (run env w (rsvp_create caller b)).2 in
  notEmpty requested = true →
  fault env _ (EventsGet requested) = None →
  events w !! requested = Some (rev, ev) →
  fault env _ (ParticipantsView requested) = None →
  (∀ d, d ∈ view_by_event (participants w) requested →
        userId (body d) ≠ _id caller) →
  full ev (view_by_event (participants w) requested) = false →
  fault env _ (ParticipantsInsert p) = None →
  participants w !! uuid env = None →
  _id caller ≠ EmptyString →
  call_fault s _ (ParticipantsViewByUser (_id caller)) = None →
  ∃ rsvps,
    execute s w' (get_my_rsvps caller) = (mkReply 200 (RsvpsPayload rsvps), w')
    ∧ mkDoc (uuid env) 1 p ∈ rsvps
    ∧ isRSVPd rsvps requested = true.
Proof.
  intros requested p w' Hne Hget Hev Hview Hnew Hfull Hins Hfresh Hid Hcall.
  pose proof (run_rsvp_create_accepted env w caller b rev ev Hne Hget Hev
                Hview Hnew Hfull Hins Hfresh) as Hrun.
  fold requested p in Hrun. subst w'. rewrite Hrun. cbn [snd].
  set (w1 := set_participants (<[uuid env := (1, p)]> (participants w)) w).
  exists (view_by_user (participants w1) (_id caller)).
  assert (mkDoc (uuid env) 1 p ∈ view_by_user (participants w1) (_id caller))
    as Hin.
  { apply elem_of_view_by_user. cbn. split; [apply lookup_insert_eq |].
    split; [apply truthy_true, Hid | reflexivity]. }
  split; [| split].
  - unfold get_my_rsvps. rewrite execute_ask. cbn [answer]. rewrite Hcall.
    cbn [fst snd]. rewrite with_id_fmap. reflexivity.
  - exact Hin.
  - eapply isRSVPd_true; [exact Hin | reflexivity].
Qed.

Lemma my_rsvps_after_rsvp_witness :
  ∃ rsvps,
    (execute (mkSetting Sample.env2 (fun _ _ => None))
       (run Sample.env1 Sample.world (rsvp_create Sample.alice (Some "e1"))).2
       (get_my_rsvps Sample.alice)).1
    = mkReply 200 (RsvpsPayload rsvps)
    ∧ isRSVPd rsvps "e1" = true.
Proof.
  destruct (my_rsvps_after_rsvp Sample.env1
              (mkSetting Sample.env2 (fun _ _ => None)) Sample.world
              Sample.alice (Some "e1") 1%nat Sample.standup)
    as (rsvps & Hrun & _ & Hrsvpd);
    [reflexivity | reflexivity | reflexivity | reflexivity
    | intros d Hd; vm_compute in Hd; inversion Hd | reflexivity | reflexivity
    | reflexivity | discriminate | reflexivity |].
  exists rsvps. rewrite Hrun. split; [reflexivity | exact Hrsvpd].
Defined.

(** The deletion of an event by its creator when the store answers every
    call. *)
Lemma run_delete_event_answered env w caller id rev ev :
  (∀ X (op : Op X), fault env X op = None) →
  id ≠ EmptyString →
  events w !! id = Some (rev, ev) →
  creatorId ev = _id caller →
  (run env w (delete_event caller id)).1
  = mkResponse 200 (MessageJson "Event and linked RSVPs deleted successfully")
  ∧ events (run env w (delete_event caller id)).2 = delete id (events w)
  ∧ ∀ k,
      participants (run env w (delete_event caller id)).2 !! k
      = match participants w !! k with
        | Some (r, p) => if decide (eventId p = id) then None else Some (r, p)
        | None => None
        end.
Proof.
  intros Hfault Hid Hev Hcreator.
  rewrite (run_delete_event env w caller id rev ev) by auto.
  destruct (run_delete_participants env w id) as (_ & _ & Hparts).
  rewrite (Hfault _ (ParticipantsView id)) in Hparts.
  destruct Hparts as (Hrows & Hother & _).
  set (w1 := (run env w (delete_participants id)).2) in *. cbn [fst snd].
  split; [reflexivity |]. split; [reflexivity |].
  intros k. cbn [participants set_events]. fold (participants w1).
  destruct (participants w !! k) as [[r p] |] eqn:Hk.
  - destruct (decide (eventId p = id)) as [He | He].
    + assert (mkDoc k r p ∈ view_by_event (participants w) id) as Hin.
      { apply elem_of_view_by_event. split; [exact Hk |].
        split; [| exact He]. cbn. rewrite He. apply truthy_true, Hid. }
      pose proof (Hrows _ Hin) as Hgone. cbn [_id _rev body] in Hgone.
      rewrite (Hfault _ _) in Hgone. exact Hgone.
    + rewrite Hother; [exact Hk |].
      intros Hin. apply list_elem_of_fmap in Hin as (d & -> & Hd).
      apply elem_of_view_by_event in Hd as [Hd [_ Hkey]].
      rewrite Hk in Hd. injection Hd as _ ->. contradiction.
  - rewrite Hother; [exact Hk |].
    intros Hin. apply list_elem_of_fmap in Hin as (d & -> & Hd).
    apply elem_of_view_by_event in Hd as [Hd _]. congruence.
Qed.



(** ** Event creation *)

Section CreationProperties.

Variable isISO8601 : string → bool.

Lemma new_event_valid b caller createdAt updatedAt :
  create_valid isISO8601 (sanitized b) = true →
  new_event (sanitized b) caller createdAt updatedAt
  = {| title := default EmptyString (trim <$> Body.title b);
       description := default EmptyString (trim <$> Body.description b);
       date := default EmptyString (Body.date b);
       location := default EmptyString (trim <$> Body.location b);
       maxParticipants := Body.maxParticipants b;
       creatorId := _id caller;
       creatorName := name (body caller);
       createdAt := createdAt;
       updatedAt := updatedAt |}.
Proof.
  intros Hvalid. unfold new_event. cbn. f_equal.
  unfold create_valid in Hvalid.
  apply andb_prop in Hvalid as [_ Hmax]. cbn in Hmax.
  destruct (Body.maxParticipants b) as [n |]; cbn; [| reflexivity].
  cbn in Hmax. unfold isInt in Hmax. apply andb_prop in Hmax as [_ Hmax].
  apply Z.leb_le in Hmax.
  destruct (n =? 0)%Z eqn:Hz; [| reflexivity].
  apply Z.eqb_eq in Hz. lia.
Qed.

Lemma execute_create_event_valid s w caller b :
  let ev := new_event (sanitized b) caller (clock (env s)) (later (env s)) in
  create_valid isISO8601 (sanitized b) = true →
  call_fault s _ (EventsPost ev) = None →
  events w !! uuid (env s) = None →
  execute s w (create_event isISO8601 caller b)
  = (mkReply 201
       (CreatedPayload "Event created successfully" (uuid (env s)) ev),
     set_events (<[uuid (env s) := (1, ev)]> (events w)) w).
Proof.
  intros ev Hvalid Hpost Hfresh. unfold create_event. rewrite Hvalid.
  cbn [negb]. rewrite !execute_ask. cbn [answer perform fst snd].
  fold ev. rewrite Hpost. unfold db_post. rewrite Hfresh. reflexivity.
Qed.

(** X8: [POST /events] with a body that passes validation, the store
    accepting the insert under a fresh id, answers 201 and stores an
    event owned by the caller, with the text fields as sanitized, no
    capacity unless one is supplied, and the two readings of the clock as
    createdAt and updatedAt; [GET /events/:id] with the id of the answer
    then returns that document.  A body that fails validation is answered
    400 and nothing is stored. *)
Theorem create_event_then_get s s' w caller b :
  let ev :=
    {| title := default EmptyString (trim <$> Body.title b);
       description := default EmptyString (trim <$> Body.description b);
       date := default EmptyString (Body.date b);
       location := default EmptyString (trim <$> Body.location b);
       maxParticipants := Body.maxParticipants b;
       creatorId := _id caller;
       creatorName := name (body caller);
       createdAt := clock (env s);
       updatedAt := later (env s) |} in
  let w' := set_events (<[uuid (env s) := (1, ev)]> (events w)) w in
  (create_valid isISO8601 (sanitized b) = true →
   call_fault s _ (EventsPost ev) = None →
   events w !! uuid (env s) = None →
   fault (env s') _ (EventsGet (uuid (env s))) = None →
   execute s w (create_event isISO8601 caller b)
   = (mkReply 201
        (CreatedPayload "Event created successfully" (uuid (env s)) ev), w')
   ∧ execute s' w' (get_event (uuid (env s)))
     = (mkReply 200 (EventPayload (mkDoc (uuid (env s)) 1 ev)), w'))
  ∧ (create_valid isISO8601 (sanitized b) = false →
     execute s w (create_event isISO8601 caller b)
     = (mkReply 400 (Plain ErrorsJson), w)).
Proof.
  intros ev w'. split.
  - intros Hvalid Hpost Hfresh Hget.
    pose proof (new_event_valid b caller (clock (env s)) (later (env s))
                  Hvalid) as Hev.
    fold ev in Hev. split.
    + rewrite execute_create_event_valid; rewrite ?Hev; auto.
    + unfold get_event. rewrite execute_ask. cbn [answer perform].
      rewrite (reading_ok _ _ _ _ Hget). rewrite (db_get_Some _ _ 1%nat ev).
      * reflexivity.
      * cbn. apply lookup_insert_eq.
  - intros Hvalid. unfold create_event. rewrite Hvalid. reflexivity.
Qed.

(** X9: an event created and then deleted by its creator, the store
    answering every call, leaves the events database as it was before the
    creation. *)
Theorem create_then_delete_restores s env' w caller b :
  let w' := (execute s w (create_event isISO8601 caller b)).2 in
  create_valid isISO8601 (sanitized b) = true →
  (∀ X (c : Call X), call_fault s X c = None) →
  events w !! uuid (env s) = None →
  uuid (env s) ≠ EmptyString →
  (∀ X (op : Op X), fault env' X op = None) →
  (run env' w' (delete_event caller (uuid (env s)))).1
  = mkResponse 200 (MessageJson "Event and linked RSVPs deleted successfully")
  ∧ events (run env' w' (delete_event caller (uuid (env s)))).2 = events w.
Proof.
  intros w' Hvalid Hcalls Hfresh Hid Hok. subst w'.
  rewrite execute_create_event_valid by auto. cbn [snd].
  set (ev := new_event (sanitized b) caller (clock (env s)) (later (env s))).
  set (w1 := set_events (<[uuid (env s) := (1%nat, ev)]> (events w)) w).
  destruct (run_delete_event_answered env' w1 caller (uuid (env s)) 1%nat ev)
    as (Hres & Hevents & _);
    [exact Hok | exact Hid | cbn; apply lookup_insert_eq | reflexivity |].
  split; [exact Hres |]. rewrite Hevents. cbn.
  apply delete_insert_id, Hfresh.
Qed.

End CreationProperties.

Lemma create_event_then_get_witness :
  let created :=
    execute Demo.setting Sample.world
      (create_event Sample.isISO8601 Sample.alice Demo.party) in
  code created.1 = 201
  ∧ code (execute Demo.setting created.2 (get_event "e3")).1 = 200.
Proof.
  destruct (proj1 (create_event_then_get Sample.isISO8601 Demo.setting
                     Demo.setting Sample.world Sample.alice Demo.party)
              eq_refl eq_refl eq_refl eq_refl) as [Hcreate Hget].
  cbv zeta. rewrite Hcreate. cbn [fst snd]. split; [reflexivity |].
  exact (f_equal (fun x => code x.1) Hget).
Defined.

Lemma create_then_delete_restores_witness :
  events
    (run Sample.env1
       (execute Demo.setting Sample.world
          (create_event Sample.isISO8601 Sample.alice Demo.party)).2
       (delete_event Sample.alice "e3")).2
  = events Sample.world.
Proof.
  apply (create_then_delete_restores Sample.isISO8601 Demo.setting Sample.env1
           Sample.world Sample.alice Demo.party);
    [reflexivity | intros X c; reflexivity | reflexivity | discriminate
    | intros X op; reflexivity].
Defined.

(** ** Listing events *)

Lemma filter_elem_of {A} (f : A → bool) (l : list A) x :
  x ∈ List.filter f l ↔ x ∈ l ∧ f x = true.
Proof. rewrite !list_elem_of_In. apply filter_In. Qed.

(** X10: [GET /events], its listing answered, answers 200 with exactly
    the stored documents whose id does not start with [_design], and
    [GET /events/creator/:userId], its lookup answered, with exactly the
    stored events whose creatorId is the one asked for.  So an event
    that was just created is in the first list unless the store gave it
    such an id, and in the second for its creator. *)
Theorem events_listed s w :
  (call_fault s _ EventsList = None →
   ∃ l,
     execute s w get_events = (mkReply 200 (EventsPayload l), w)
     ∧ ∀ d, d ∈ l
            ↔ events w !! _id d = Some (_rev d, body d)
              ∧ String.prefix "_design" (_id d) = false)
  ∧ (∀ u,
       call_fault s _ (EventsViewByCreator u) = None →
       ∃ l,
         execute s w (get_events_by_creator u)
         = (mkReply 200 (EventsPayload l), w)
         ∧ ∀ d, d ∈ l
                ↔ events w !! _id d = Some (_rev d, body d)
                  ∧ creatorId (body d) = u ∧ u ≠ EmptyString).
Proof.
  split.
  - intros Hlist. eexists. split.
    + unfold get_events. rewrite execute_ask. cbn [answer]. rewrite Hlist.
      cbn [fst snd]. rewrite with_id_fmap. reflexivity.
    + intros d. rewrite filter_elem_of, elem_of_docs, negb_true_iff.
      reflexivity.
  - intros u Hview. exists (view_by_creator (events w) u). split.
    + unfold get_events_by_creator. rewrite execute_ask. cbn [answer].
      rewrite Hview. cbn [fst snd]. rewrite with_id_fmap. reflexivity.
    + intros d. rewrite elem_of_view_by_creator. unfold by_creator.
      rewrite truthy_true. split.
      * intros (Hd & Hne & He). rewrite He in Hne. auto.
      * intros (Hd & He & Hne). rewrite He. auto.
Qed.

Lemma events_listed_witness :
  (execute Demo.setting Sample.world get_events).2 = Sample.world
  ∧ (execute Demo.setting Sample.world (get_events_by_creator "u-bob")).2
    = Sample.world.
Proof.
  destruct (events_listed Demo.setting Sample.world) as [Hall Hmine].
  destruct (Hall eq_refl) as (l & Hrun & _).
  destruct (Hmine "u-bob" eq_refl) as (l' & Hrun' & _).
  rewrite Hrun, Hrun'. split; reflexivity.
Defined.

(** X11: the client's filter "my-events", applied to what [GET /events]
    lists, keeps the events that [GET /events/creator/:userId] lists for
    the user, but for design documents: the filter of the client and the
    index of the store agree. *)
Theorem my_events_filter_agrees w user_id myRSVPs :
  user_id ≠ EmptyString →
  filteredEvents "my-events" user_id myRSVPs
    (List.filter (fun row => negb (String.prefix "_design" (_id row)))
       (docs (events w)))
  = List.filter (fun row => negb (String.prefix "_design" (_id row)))
      (view_by_creator (events w) user_id).
Proof.
  intros Hid. unfold filteredEvents, view_by_creator. cbn [String.eqb].
  induction (docs (events w)) as [| d l IH]; [reflexivity |].
  rewrite filter_cons. cbn [List.filter].
  assert (by_creator user_id d
          ↔ String.eqb (creatorId (body d)) user_id = true) as Hiff.
  { unfold by_creator. rewrite truthy_true, String.eqb_eq. split.
    - intros [_ He]. exact He.
    - intros He. rewrite He. auto. }
  destruct (decide (by_creator user_id d)) as [Hby | Hby].
  - apply Hiff in Hby as Heq. cbn [List.filter].
    destruct (negb (String.prefix "_design" (_id d))); cbn [List.filter];
      rewrite ?Heq, IH; reflexivity.
  - assert (String.eqb (creatorId (body d)) user_id = false) as Heq
      by (apply not_true_is_false; intros H; apply Hby, Hiff, H).
    destruct (negb (String.prefix "_design" (_id d))); cbn [List.filter];
      rewrite ?Heq, IH; reflexivity.
Qed.

Lemma my_events_filter_agrees_witness :
  _id <$> filteredEvents "my-events" "u-bob" []
            (List.filter (fun row => negb (String.prefix "_design" (_id row)))
               (docs (events Sample.world)))
  = ["e2"].
Proof.
  rewrite (my_events_filter_agrees Sample.world "u-bob" []) by discriminate.
  vm_compute. reflexivity.
Defined.

(** ** What the routes never write *)

Lemma log_databases msg e w :
  users (log msg e w) = users w ∧ events (log msg e w) = events w
  ∧ participants (log msg e w) = participants w.
Proof. repeat split. Qed.

Ltac reading_step s w :=
  match goal with
  | |- context [call_fault s ?X ?c] => destruct (call_fault s X c)
  | |- context [fault (env s) ?X ?op] => destruct (fault (env s) X op)
  | |- context [db_get (events w) ?id] => destruct (db_get (events w) id)
  | |- context [if ?c then _ else _] => destruct c
  end.

(** X12: a reading route never writes a database, whatever the store
    answers: it answers 200, or 404 for a missing event, and leaves the
    world as it was, or it answers 500 and adds one line to the
    console. *)
Theorem reading_routes_write_nothing s w r :
  let done := execute s w (reading_route r) in
  users done.2 = users w
  ∧ events done.2 = events w
  ∧ participants done.2 = participants w
  ∧ ((code done.1 = 200 ∨ code done.1 = 404) ∧ done.2 = w
     ∨ code done.1 = 500
       ∧ ∃ msg e, console done.2 = (console w ++ [(msg, e)])%list).
Proof.
  destruct r; cbv zeta; unfold reading_route, get_participants,
    get_user_rsvps, get_my_rsvps, get_events, get_event,
    get_events_by_creator; rewrite execute_ask; cbn [answer perform];
    unfold reading;
    repeat (first [reading_step s w | progress cbn [fst snd execute]]);
    cbn; repeat split; eauto 7.
Qed.

(** The users database is written by no store call of the routes. *)
Lemma perform_users env w {X} (op : Op X) : users (perform env w op).2 = users w.
Proof.
  destruct op; cbn; unfold reading, writing;
    try (destruct (fault env _ _)); reflexivity.
Qed.

Lemma run_users {A} env w (p : Prog A) : users (run env w p).2 = users w.
Proof.
  revert w. induction p as [a | X op k IH]; intros w; cbn; [reflexivity |].
  pose proof (perform_users env w op) as Hu.
  destruct (perform env w op) as [x w1]. cbn in Hu. rewrite IH. exact Hu.
Qed.

Lemma avoids_bind {A B} bad (p : Prog A) (f : A → Prog B) :
  avoids bad p → (∀ a, avoids bad (f a)) → avoids bad (p ≫= f).
Proof.
  intros Hp Hf. induction p as [a | X op k IH]; cbn; [apply Hf |].
  destruct Hp as [Hop Hk]. split; [exact Hop |]. intros x. apply IH, Hk.
Qed.

Lemma perform_events env w {X} (op : Op X) :
  writes_events op = false → events (perform env w op).2 = events w.
Proof.
  destruct op; cbn; intros Hop; try discriminate;
    unfold reading, writing; try (destruct (fault env _ _)); reflexivity.
Qed.

Lemma perform_participants env w {X} (op : Op X) :
  writes_participants op = false →
  participants (perform env w op).2 = participants w.
Proof.
  destruct op; cbn; intros Hop; try discriminate;
    unfold reading, writing; try (destruct (fault env _ _)); reflexivity.
Qed.

Lemma run_avoids_events {A} env w (p : Prog A) :
  avoids (@writes_events) p → events (run env w p).2 = events w.
Proof.
  revert w. induction p as [a | X op k IH]; intros w Hp; cbn; [reflexivity |].
  destruct Hp as [Hop Hk].
  pose proof (perform_events env w op Hop) as He.
  destruct (perform env w op) as [x w1]. cbn in He. rewrite IH by apply Hk.
  exact He.
Qed.

Lemma run_avoids_participants {A} env w (p : Prog A) :
  avoids (@writes_participants) p →
  participants (run env w p).2 = participants w.
Proof.
  revert w. induction p as [a | X op k IH]; intros w Hp; cbn; [reflexivity |].
  destruct Hp as [Hop Hk].
  pose proof (perform_participants env w op Hop) as He.
  destruct (perform env w op) as [x w1]. cbn in He. rewrite IH by apply Hk.
  exact He.
Qed.

Ltac avoids_step :=
  match goal with
  | |- avoids _ (if ?c then _ else _) => destruct c
  | |- avoids _ (match ?x with _ => _ end) => destruct x
  | |- avoids _ (_ ≫= _) => apply avoids_bind
  | |- avoids _ _ => cbn; first [exact I | split; [reflexivity | intros ?]]
  | |- True => exact I
  | |- _ ∧ _ => split; [reflexivity | intros ?]
  | |- ∀ _, _ => intros ?
  end.

(** X13: whatever the store answers, no mutating route writes the users
    database; RSVP creation and both cancellations leave the events
    database as it was; an event update leaves the participants database
    as it was; and only RSVP creation can add a participant: after every
    other route each participant document is one that was there
    before. *)
Theorem mutating_routes_frame isISO8601 env w r :
  let w' := (run env w (route isISO8601 r)).2 in
  users w' = users w
  ∧ (match r with
     | PostParticipant _ _ | DeleteParticipant _ _
     | DeleteParticipantOf _ _ _ => events w' = events w
     | PutEvent _ _ _ => participants w' = participants w
     | DeleteEvent _ _ => True
     end)
  ∧ (¬ is_rsvp r → participants w' ⊆ participants w).
Proof.
  cbv zeta. split; [apply run_users |]. split.
  - destruct r; [| | | | exact I].
    + apply run_avoids_events. unfold route, rsvp_create, send.
      repeat avoids_step.
    + apply run_avoids_events.
      unfold route, cancel_rsvp, cancel_catch, send. repeat avoids_step.
    + apply run_avoids_events.
      unfold route, cancel_rsvp_by_pair, cancel_pair_catch, send.
      repeat avoids_step.
    + apply run_avoids_participants.
      unfold route, update_event, update_catch, send. repeat avoids_step.
  - intros Hr. apply run_never_inserts, never_inserts_route, Hr.
Qed.

Lemma mutating_routes_frame_witness :
  participants
    (run Sample.env1 Sample.world_rsvps
       (route Sample.isISO8601 (DeleteEvent Sample.bob "e2"))).2
  ⊆ participants Sample.world_rsvps.
Proof.
  apply (mutating_routes_frame Sample.isISO8601 Sample.env1
           Sample.world_rsvps (DeleteEvent Sample.bob "e2")).
  intros [].
Defined.

(** ** The client's header and the middleware *)

Lemma substring_all s : String.substring 0 (String.length s) s = s.
Proof.
  induction s as [| c s IH]; simpl; [reflexivity | f_equal; exact IH].
Qed.

Lemma prefix_append pat s : String.prefix pat (pat ++ s) = true.
Proof.
  induction pat as [| c pat IH]; simpl.
  - destruct s; reflexivity.
  - destruct (ascii_dec c c); [exact IH | contradiction].
Qed.

Lemma length_append s t :
  String.length (s ++ t) = (String.length s + String.length t)%nat.
Proof.
  induction s as [| c s IH]; simpl; [reflexivity | f_equal; exact IH].
Qed.

Lemma substring_append pat s :
  String.substring (String.length pat) (String.length s) (pat ++ s) = s.
Proof.
  induction pat as [| c pat IH]; simpl; [apply substring_all | exact IH].
Qed.

(** What [authHeader] puts before the token is what the middleware takes
    away. *)
Lemma replace_authHeader token :
  replace "Bearer " EmptyString (authHeader token) = default "null" token.
Proof.
  unfold authHeader. set (t := default "null" token).
  destruct ("Bearer " ++ t) as [| c s] eqn:Hs; [discriminate |].
  unfold replace; fold replace. rewrite <- Hs, prefix_append.
  rewrite length_append.
  replace (String.length "Bearer " + String.length t - String.length "Bearer ")%nat
    with (String.length t) by lia.
  rewrite substring_append. reflexivity.
Qed.

Section HeaderProperties.

Variable jwt_verify : string → option string.

(** X14: the header the client builds from its stored token and the
    middleware's extraction are inverse: for a stored non-empty token
    that verifies and whose subject is in the users database, the
    middleware calls [next()] with that user's document, so [req.userId]
    is the subject of the token.  A client without a stored token sends
    "Bearer null", which the middleware takes for a token: it is
    answered 401 "Invalid token", not "Authentication required", the
    verifier rejecting "null". *)
Theorem auth_client_header env w :
  (∀ token sub rev user,
     token ≠ EmptyString →
     jwt_verify token = Some sub →
     fault env _ (UsersGet sub) = None →
     users w !! sub = Some (rev, user) →
     run env w (auth jwt_verify (Some (authHeader (Some token))))
     = (Next (mkDoc sub rev user), w))
  ∧ (jwt_verify "null" = None →
     run env w (auth jwt_verify (Some (authHeader None)))
     = (Refused (mkResponse 401 (ErrorJson "Invalid token")), w)).
Proof.
  split.
  - intros token sub rev user Hne Hverify Hget Huser.
    rewrite (auth_token jwt_verify env w _ token);
      [| cbn [fmap option_fmap option_map]; rewrite replace_authHeader;
         reflexivity | exact Hne].
    rewrite Hverify. cbn [perform].
    rewrite (reading_ok _ _ _ _ Hget), (db_get_Some _ _ _ _ Huser).
    reflexivity.
  - intros Hnull.
    rewrite (auth_token jwt_verify env w _ "null");
      [| cbn [fmap option_fmap option_map]; rewrite replace_authHeader;
         reflexivity | discriminate].
    rewrite Hnull. reflexivity.
Qed.

End HeaderProperties.

Lemma auth_client_header_witness :
  run Sample.env1 Sample.world
    (auth Sample.jwt_verify (Some (authHeader (Some "jwt:u-alice"))))
  = (Next Sample.alice, Sample.world)
  ∧ run Sample.env1 Sample.world
      (auth Sample.jwt_verify (Some (authHeader None)))
    = (Refused (mkResponse 401 (ErrorJson "Invalid token")), Sample.world).
Proof.
  destruct (auth_client_header Sample.jwt_verify Sample.env1 Sample.world)
    as [Htoken Hnone].
  split.
  - apply (Htoken "jwt:u-alice" "u-alice" 1%nat (body Sample.alice));
      [discriminate | reflexivity | reflexivity | reflexivity].
  - apply Hnone. reflexivity.
Defined.

(** ** Event deletion when the store refuses to delete the event *)

(** X15: when the store has deleted the participants of an event and
    then refuses to delete the event itself, the deletion is answered as
    failed (404 "Event not found" for a refusal with status 404, which is
    not logged; 500 otherwise, with a line in the console) although the
    participants are gone: the event is still there, without any of its
    RSVPs. *)
Theorem delete_event_refused_after_cascade env w caller id rev ev e :
  let done := run env w (delete_event caller id) in
  id ≠ EmptyString →
  events w !! id = Some (rev, ev) →
  creatorId ev = _id caller →
  fault env _ (EventsGet id) = None →
  fault env _ (ParticipantsView id) = None →
  (∀ pid prev, fault env _ (ParticipantsDestroy pid prev) = None) →
  fault env _ (EventsDestroy id rev) = Some e →
  done.1
  = (if decide (statusCode e = Some 404)
     then mkResponse 404 (ErrorJson "Event not found")
     else mkResponse 500 (ErrorJson "Server error deleting event"))
  ∧ events done.2 = events w
  ∧ (∀ k r p, participants done.2 !! k = Some (r, p) → eventId p ≠ id)
  ∧ (∀ k r p,
       participants w !! k = Some (r, p) → eventId p ≠ id →
       participants done.2 !! k = Some (r, p))
  ∧ console done.2
    = (console w
       ++ (if decide (statusCode e = Some 404)
           then []
           else [("Delete event error:", e)]))%list.
Proof.
  intros done Hid Hev Hcreator Hget Hview Hdestroys Hrefused. subst done.
  unfold delete_event. rewrite run_await. cbn [perform].
  rewrite (reading_ok _ _ _ _ Hget), (db_get_Some _ _ _ _ Hev).
  cbn [fst snd body _rev].
  destruct (decide (creatorId ev ≠ _id caller)); [contradiction |].
  rewrite run_bind.
  destruct (run_delete_participants env w id) as (_ & Hevents & Hparts).
  rewrite Hview in Hparts. destruct Hparts as (Hrows & Hother & Hconsole).
  rewrite promise_all_resolved, app_nil_r in Hconsole
    by (intros; apply Hdestroys).
  destruct (run env w (delete_participants id)) as [[] w1]. cbn [snd] in *.
  rewrite run_await. cbn [perform].
  rewrite (writing_fault _ _ _ _ _ _ Hrefused). cbn [fst snd].
  assert (∀ k, participants w1 !! k
               = match participants w !! k with
                 | Some (r, p) =>
                     if decide (eventId p = id) then None else Some (r, p)
                 | None => None
                 end) as Hchar.
  { intros k. destruct (participants w !! k) as [[r p] |] eqn:Hk.
    - destruct (decide (eventId p = id)) as [He | He].
      + assert (mkDoc k r p ∈ view_by_event (participants w) id) as Hin.
        { apply elem_of_view_by_event. split; [exact Hk |].
          split; [| exact He]. cbn. rewrite He. apply truthy_true, Hid. }
        pose proof (Hrows _ Hin) as Hgone. cbn [_id _rev body] in Hgone.
        rewrite Hdestroys in Hgone. exact Hgone.
      + rewrite Hother; [exact Hk |].
        intros Hin. apply list_elem_of_fmap in Hin as (d & -> & Hd).
        apply elem_of_view_by_event in Hd as [Hd [_ Hkey]].
        rewrite Hk in Hd. injection Hd as _ ->. contradiction.
    - rewrite Hother; [exact Hk |].
      intros Hin. apply list_elem_of_fmap in Hin as (d & -> & Hd).
      apply elem_of_view_by_event in Hd as [Hd _]. congruence. }
  unfold delete_catch.
  destruct (decide (statusCode e = Some 404)); cbn.
  - split; [reflexivity |]. split; [exact Hevents |].
    split; [| split; [| rewrite app_nil_r; exact Hconsole]].
    + intros k r p. rewrite Hchar.
      destruct (participants w !! k) as [[r' p'] |]; [| discriminate].
      destruct (decide (eventId p' = id)); [discriminate |]. congruence.
    + intros k r p Hk He. rewrite Hchar, Hk.
      destruct (decide (eventId p = id)); [contradiction | reflexivity].
  - split; [reflexivity |]. split; [exact Hevents |].
    split; [| split; [| rewrite Hconsole; reflexivity]].
    + intros k r p. rewrite Hchar.
      destruct (participants w !! k) as [[r' p'] |]; [| discriminate].
      destruct (decide (eventId p' = id)); [discriminate |]. congruence.
    + intros k r p Hk He. rewrite Hchar, Hk.
      destruct (decide (eventId p = id)); [contradiction | reflexivity].
Qed.

Lemma delete_event_refused_after_cascade_witness :
  let done :=
    run Demo.env_events_stay Sample.world_rsvps (delete_event Sample.bob "e2") in
  status done.1 = 500
  ∧ is_Some (events done.2 !! "e2")
  ∧ participants done.2 !! "p1" = None.
Proof.
  destruct (delete_event_refused_after_cascade Demo.env_events_stay
              Sample.world_rsvps Sample.bob "e2" 1%nat Sample.meetup
              (HttpError 500))
    as (Hres & Hevents & Hgone & _);
    [discriminate | reflexivity | reflexivity | reflexivity | reflexivity
    | intros; reflexivity | reflexivity |].
  cbv zeta. rewrite Hres, Hevents. split; [reflexivity |].
  split; [eexists; reflexivity |].
  destruct (participants _ !! "p1") as [[r p] |] eqn:Hp1; [| reflexivity].
  exfalso. apply (Hgone "p1" r p Hp1).
  vm_compute in Hp1. discriminate.
Defined.

(** ** Event update and the capacity *)

Lemma run_update_event_valid isISO8601 env w caller id rev ev b :
  update_valid isISO8601 (sanitized b) = true →
  (∀ X (op : Op X), fault env X op = None) →
  events w !! id = Some (rev, ev) →
  creatorId ev = _id caller →
  let ev' := update_fields (sanitized b) (clock env) ev in
  run env w (update_event isISO8601 caller id b)
  = (mkResponse 200
       (EventJson "Event updated successfully" id (mkDoc id rev ev')),
     set_events (<[id := (S rev, ev')]> (events w)) w).
Proof.
  intros Hvalid Hfault Hev Hcreator ev'. unfold update_event.
  rewrite Hvalid. cbn [negb]. rewrite run_await. cbn [perform].
  rewrite (reading_ok _ _ _ _ (Hfault _ _)), (db_get_Some _ _ _ _ Hev).
  cbn [fst snd body _id _rev].
  destruct (decide (creatorId ev ≠ _id caller)); [contradiction |].
  rewrite run_await. cbn [perform fst snd]. rewrite run_await. cbn [perform].
  rewrite (writing_ok _ _ _ _ _ (Hfault _ _)). unfold db_put. cbn [_id _rev body].
  rewrite Hev. destruct (decide (rev = rev)); [| contradiction].
  reflexivity.
Qed.

(** X16: an update by the creator does not look at the participants:
    a capacity below the number of participants the event already has
    passes validation and is stored, and the event then has more
    participants than its capacity. *)
Theorem update_event_may_undercut isISO8601 env w caller id rev ev b c :
  let done := run env w (update_event isISO8601 caller id b) in
  update_valid isISO8601 (sanitized b) = true →
  Body.maxParticipants b = Some c →
  (∀ X (op : Op X), fault env X op = None) →
  events w !! id = Some (rev, ev) →
  creatorId ev = _id caller →
  (c < Z.of_nat (length (view_by_event (participants w) id)))%Z →
  status done.1 = 200
  ∧ (∃ ev', events done.2 !! id = Some (S rev, ev')
            ∧ maxParticipants ev' = Some c)
  ∧ participants done.2 = participants w
  ∧ ¬ within_capacity done.2.
Proof.
  intros done Hvalid Hmax Hfault Hev Hcreator Hless. subst done.
  rewrite (run_update_event_valid isISO8601 env w caller id rev ev b) by auto.
  cbn [fst snd status].
  assert (maxParticipants (update_fields (sanitized b) (clock env) ev) = Some c)
    as Hcap by (cbn; rewrite Hmax; reflexivity).
  split; [reflexivity |]. split; [| split; [reflexivity |]].
  - eexists. split; [cbn; apply lookup_insert_eq | exact Hcap].
  - intros Hwithin.
    assert (1 ≤ c)%Z as Hpos.
    { unfold update_valid in Hvalid. apply andb_prop in Hvalid as [_ Hint].
      cbn in Hint. rewrite Hmax in Hint. cbn in Hint. unfold isInt in Hint.
      apply andb_prop in Hint as [_ Hint]. apply Z.leb_le, Hint. }
    specialize (Hwithin id (S rev) _ c (lookup_insert_eq _ _ _) Hcap).
    cbn in Hwithin. lia.
Qed.

Lemma update_event_may_undercut_witness :
  ¬ within_capacity
      (run Sample.env1 Sample.world_rsvps
         (update_event Sample.isISO8601 Sample.bob "e2"
            (Body.mk None None None None (Some 1%Z)))).2.
Proof.
  apply (update_event_may_undercut Sample.isISO8601 Sample.env1
           Sample.world_rsvps Sample.bob "e2" 1%nat Sample.meetup
           (Body.mk None None None None (Some 1%Z)) 1%Z);
    [reflexivity | reflexivity | intros X op; reflexivity | reflexivity
    | reflexivity | vm_compute; reflexivity].
Defined.

(** ** Cancellation when the lookup fails *)

(** X17: the two cancellation routes answer a failed lookup differently.
    By id, a failure with status 404 is answered 404 "RSVP not found"
    without a line in the console, whether or not the participant is
    stored, and any other failure 500 with a line; by event and user,
    every failure of the lookup, one with status 404 too, is answered 500
    with a line.  Nothing is deleted. *)
Theorem cancel_lookup_failure env w caller err :
  (∀ id,
     fault env _ (ParticipantsGet id) = Some err →
     run env w (cancel_rsvp caller id)
     = if decide (statusCode err = Some 404)
       then (mkResponse 404 (ErrorJson "RSVP not found"), w)
       else (mkResponse 500 (ErrorJson "Server error cancelling RSVP"),
             log "Cancel RSVP error:" err w))
  ∧ (∀ e,
       fault env _ (ParticipantsView e) = Some err →
       run env w (cancel_rsvp_by_pair caller e (_id caller))
       = (mkResponse 500 (ErrorJson "Server error cancelling RSVP"),
          log "Cancel RSVP error:" err w)).
Proof.
  split.
  - intros id Hget. unfold cancel_rsvp. rewrite run_await. cbn [perform].
    rewrite (reading_fault _ _ _ _ _ Hget). cbn [fst snd].
    unfold cancel_catch. destruct (decide (statusCode err = Some 404));
      reflexivity.
  - intros e Hview. unfold cancel_rsvp_by_pair.
    destruct (decide (_id caller ≠ _id caller)); [contradiction |].
    rewrite run_await. cbn [perform].
    rewrite (reading_fault _ _ _ _ _ Hview). reflexivity.
Qed.

Lemma cancel_lookup_failure_witness :
  run Demo.env_participants_gone Sample.world_rsvps
    (cancel_rsvp Sample.alice "p1")
  = (mkResponse 404 (ErrorJson "RSVP not found"), Sample.world_rsvps)
  ∧ run Demo.env_participants_gone Sample.world_rsvps
      (cancel_rsvp_by_pair Sample.alice "e2" "u-alice")
    = (mkResponse 500 (ErrorJson "Server error cancelling RSVP"),
       log "Cancel RSVP error:" (HttpError 404) Sample.world_rsvps).
Proof.
  destruct (cancel_lookup_failure Demo.env_participants_gone
              Sample.world_rsvps Sample.alice (HttpError 404))
    as [Hid Hpair].
  split; [apply (Hid "p1") | apply (Hpair "e2")]; reflexivity.
Defined.

(** ** A header without the scheme *)

Lemma replace_absent pat rep s :
  (∀ n, String.substring n (String.length pat) s ≠ pat) →
  replace pat rep s = s.
Proof.
  induction s as [| c s IH]; intros Habsent.
  - unfold replace. destruct (String.prefix pat EmptyString) eqn:Hp;
      [| reflexivity].
    apply String.prefix_correct in Hp. exfalso. exact (Habsent 0%nat Hp).
  - unfold replace; fold replace.
    destruct (String.prefix pat (String c s)) eqn:Hp.
    + apply String.prefix_correct in Hp. exfalso. exact (Habsent 0%nat Hp).
    + f_equal. apply IH. intros n. exact (Habsent (S n)).
Qed.

Section SchemeProperties.

Variable jwt_verify : string → option string.

(** X18: the middleware does not require the scheme: a header in which
    "Bearer " does not occur is taken whole for the token, and the
    request passes when it verifies and its subject is stored. *)
Theorem auth_without_scheme env w header sub rev user :
  (∀ n, String.substring n 7 header ≠ "Bearer ") →
  header ≠ EmptyString →
  jwt_verify header = Some sub →
  fault env _ (UsersGet sub) = None →
  users w !! sub = Some (rev, user) →
  run env w (auth jwt_verify (Some header)) = (Next (mkDoc sub rev user), w).
Proof.
  intros Habsent Hne Hverify Hget Huser.
  rewrite (auth_token jwt_verify env w _ header);
    [| cbn [fmap option_fmap option_map];
       rewrite (replace_absent "Bearer " EmptyString header Habsent);
       reflexivity | exact Hne].
  rewrite Hverify. cbn [perform].
  rewrite (reading_ok _ _ _ _ Hget), (db_get_Some _ _ _ _ Huser). reflexivity.
Qed.

End SchemeProperties.

Lemma auth_without_scheme_witness :
  run Sample.env1 Sample.world (auth Sample.jwt_verify (Some "jwt:u-bob"))
  = (Next Sample.bob, Sample.world).
Proof.
  apply (auth_without_scheme Sample.jwt_verify Sample.env1 Sample.world
           "jwt:u-bob" "u-bob" 1%nat (body Sample.bob));
    [| discriminate | reflexivity | reflexivity | reflexivity].
  intros n. do 10 (destruct n as [| n]; [discriminate |]).
  destruct n; discriminate.
Defined.

(** ** The client's RSVP button *)

Lemma isRSVPd_existsb w (caller : Doc User) e :
  _id caller ≠ EmptyString →
  e ≠ EmptyString →
  isRSVPd (view_by_user (participants w) (_id caller)) e
  = existsb (fun row => String.eqb (userId (body row)) (_id caller))
      (view_by_event (participants w) e).
Proof.
  intros Hid He. apply eq_true_iff_eq. unfold isRSVPd.
  rewrite !existsb_exists. split.
  - intros (d & Hd & Heq). exists d. apply String.eqb_eq in Heq.
    apply list_elem_of_In, elem_of_view_by_user in Hd as (Hd & _ & Hu).
    split; [| apply String.eqb_eq, Hu].
    apply list_elem_of_In, elem_of_view_by_event. split; [exact Hd |].
    split; [| exact Heq]. rewrite Heq. apply truthy_true, He.
  - intros (d & Hd & Heq). exists d. apply String.eqb_eq in Heq.
    apply list_elem_of_In, elem_of_view_by_event in Hd as (Hd & _ & Hev).
    split; [| apply String.eqb_eq, Hev].
    apply list_elem_of_In, elem_of_view_by_user. split; [exact Hd |].
    split; [| exact Heq]. rewrite Heq. apply truthy_true, Hid.
Qed.

(** X19: the client's [isRSVPd], computed from the user's RSVPs as
    [GET /participants/my-rsvps] lists them, is the duplicate check of
    RSVP creation, computed from the participants of the event: the
    button reads "Cancel RSVP" exactly when an RSVP would be refused as
    already made. *)
Theorem isRSVPd_is_duplicate_check w (caller : Doc User) e event :
  _id caller ≠ EmptyString →
  e ≠ EmptyString →
  isRSVPd (view_by_user (participants w) (_id caller)) e = true
  ↔ rsvp_checks caller event (Resolved (view_by_event (participants w) e))
    = Some (mkResponse 400 (ErrorJson "Already RSVP'd to this event")).
Proof.
  intros Hid He. rewrite (isRSVPd_existsb w caller e Hid He).
  unfold rsvp_checks. cbv zeta.
  destruct (existsb _ (view_by_event (participants w) e)).
  - split; reflexivity.
  - split; [discriminate |].
    destruct (full (body event) (view_by_event (participants w) e));
      discriminate.
Qed.

Lemma isRSVPd_is_duplicate_check_witness :
  rsvp_checks Sample.alice (mkDoc "e2" 1%nat Sample.meetup)
    (Resolved (view_by_event (participants Sample.world_rsvps) "e2"))
  = Some (mkResponse 400 (ErrorJson "Already RSVP'd to this event")).
Proof.
  apply (isRSVPd_is_duplicate_check Sample.world_rsvps Sample.alice "e2");
    [discriminate | discriminate | vm_compute; reflexivity].
Defined.

(** X20: when the client's data are those of the store and the RSVP
    button is enabled, the request [handleRSVP] sends succeeds, the store
    answering every call: the cancellation is answered 200 when the button
    reads "Cancel RSVP", the RSVP 201 when it reads "RSVP to Event". *)
Theorem enabled_button_succeeds isISO8601 env w user e rev ev :
  let rsvpd := isRSVPd (view_by_user (participants w) (_id user)) e in
  _id user ≠ EmptyString →
  e ≠ EmptyString →
  trim e = e →
  events w !! e = Some (rev, ev) →
  (∀ X (op : Op X), fault env X op = None) →
  participants w !! uuid env = None →
  rsvp_disabled false rsvpd ev (view_by_event (participants w) e) = false →
  status (run env w (route isISO8601 (handleRSVP user rsvpd e))).1
  = if rsvpd then 200 else 201.
Proof.
  intros rsvpd Hid He Htrim Hev Hok Hfresh Henabled.
  pose proof (isRSVPd_existsb w user e Hid He) as Hagree.
  fold rsvpd in Hagree. unfold handleRSVP.
  destruct rsvpd; cbn [route].
  - unfold cancel_rsvp_by_pair.
    destruct (decide (_id user ≠ _id user)); [contradiction |].
    rewrite run_await. cbn [perform]. rewrite (reading_ok _ _ _ _ (Hok _ _)).
    cbn [fst snd]. symmetry in Hagree.
    apply existsb_exists in Hagree as (d & Hd & Hmine).
    destruct (find _ (view_by_event (participants w) e)) as [d' |] eqn:Hfind.
    + apply find_some in Hfind as [Hd' _].
      apply list_elem_of_In, elem_of_view_by_event in Hd' as [Hstored _].
      rewrite run_await. cbn [perform].
      rewrite (writing_ok _ _ _ _ _ (Hok _ _)). unfold db_destroy.
      rewrite Hstored. destruct (decide (_rev d' = _rev d'));
        [reflexivity | contradiction].
    + pose proof (find_none _ _ Hfind d Hd) as Hnot. cbn in Hnot. congruence.
  - cbn in Henabled.
    assert (trim (default EmptyString (Some e)) = e) as Hreq by exact Htrim.
    pose proof (run_rsvp_create_accepted env w user (Some e) rev ev) as Hrun.
    cbv zeta in Hrun. rewrite Hreq in Hrun. rewrite Hrun; auto.
    + apply truthy_true, He.
    + intros d Hd. apply String.eqb_neq.
      symmetry in Hagree.
      exact (existsb_false_elem_of _ _ Hagree d Hd).
Qed.

Lemma enabled_button_succeeds_witness :
  status
    (run Sample.env2 Sample.world_full
       (route Sample.isISO8601 (handleRSVP Sample.alice true "e1"))).1 = 200
  ∧ status
      (run Sample.env1 Sample.world
         (route Sample.isISO8601 (handleRSVP Sample.bob false "e1"))).1 = 201.
Proof.
  split.
  - apply (enabled_button_succeeds Sample.isISO8601 Sample.env2
             Sample.world_full Sample.alice "e1" 1%nat Sample.standup);
      [discriminate | discriminate | reflexivity | reflexivity
      | intros X op; reflexivity | reflexivity | reflexivity].
  - apply (enabled_button_succeeds Sample.isISO8601 Sample.env1 Sample.world
             Sample.bob "e1" 1%nat Sample.standup);
      [discriminate | discriminate | reflexivity | reflexivity
      | intros X op; reflexivity | reflexivity | reflexivity].
Defined.

(** ** The forms and the validation of the capacity *)

Section FormProperties.

Variable isISO8601 : string → bool.
Variable parseInt : string → option Z.

(** X21: the create and edit forms send [maxParticipants: null] when the
    capacity field is empty or is no number, and a body with a [null]
    capacity fails validation: both [POST /events] and [PUT /events/:id]
    answer such a form with 400, whatever its other fields, and change
    nothing.  With a number in the field the body reaches the route with
    that capacity. *)
Theorem form_without_capacity_rejected s env w caller id formData :
  (truthy (form_maxParticipants formData) = false
   ∨ parseInt (form_maxParticipants formData) = None →
   execute s w (post_event isISO8601 caller (eventData parseInt formData))
   = (mkReply 400 (Plain ErrorsJson), w)
   ∧ run env w (put_event isISO8601 caller id (eventData parseInt formData))
     = (mkResponse 400 ErrorsJson, w))
  ∧ (∀ n,
       truthy (form_maxParticipants formData) = true →
       parseInt (form_maxParticipants formData) = Some n →
       let b :=
         Body.mk (Some (form_title formData)) (Some (form_description formData))
           (Some (form_date formData)) (Some (form_location formData))
           (Some n) in
       post_event isISO8601 caller (eventData parseInt formData)
       = create_event isISO8601 caller b
       ∧ put_event isISO8601 caller id (eventData parseInt formData)
         = update_event isISO8601 caller id b).
Proof.
  split.
  - intros Hempty. unfold post_event, put_event, received, eventData.
    cbn [Wire.maxParticipants].
    destruct (truthy (form_maxParticipants formData)) eqn:Ht.
    + destruct Hempty as [Hf | Hnan]; [discriminate |]. rewrite Hnan.
      split; reflexivity.
    + split; reflexivity.
  - intros n Ht Hn b. unfold post_event, put_event, received, eventData.
    cbn [Wire.maxParticipants]. rewrite Ht, Hn. split; reflexivity.
Qed.

End FormProperties.

Lemma form_without_capacity_rejected_witness :
  execute Demo.setting Sample.world
    (post_event Sample.isISO8601 Sample.alice
       (eventData Demo.parseInt Demo.form))
  = (mkReply 400 (Plain ErrorsJson), Sample.world).
Proof.
  apply (proj1 (form_without_capacity_rejected Sample.isISO8601 Demo.parseInt
                  Demo.setting Sample.env1 Sample.world Sample.alice "e1"
                  Demo.form)).
  left. reflexivity.
Defined.
